(** * GenNews-RSSv: the feed monitor of [app.py]

    A shallow embedding of the polling pipeline of [app.py]: the feed list
    refresh ([GoogleSheetReader.get_rss_feeds]), the change detector
    ([RSSMonitor._check_rss], [RSSMonitor._parse_telegram_channel]), the
    batch flush ([RSSMonitor._process_pending_entries]), the single-entry
    classifier ([RSSMonitor.categorize_with_chatgpt]), the notifier
    ([send_telegram_message]) and one turn of [RSSMonitor._monitor_loop].

    Python statements become computations in a state-and-exception monad
    over the monitor object and a trace of the external calls made.  What
    the outside world answers (HTTP responses, parsed feeds, classifier
    replies, clock readings, delivery outcomes) is an argument of each
    computation. *)

From Stdlib Require Import ZArith String Ascii List Bool Lia.
From stdpp Require Import base option list strings pretty gmap.

Local Open Scope string_scope.
Local Open Scope list_scope.
Local Open Scope Z_scope.

(** ** Python values used by the program *)

Module Py.

(** The exception classes the program can meet.  All of them derive from
    [Exception]; [RequestException] stands for the whole
    [requests.exceptions.RequestException] family ([HTTPError],
    [ConnectionError], [Timeout], ...). *)
Inductive exn : Type :=
| RequestException (detail : string)
| AttributeError (obj attr : string)
| KeyError (key : string)
| TypeError (detail : string)
| ValueError (detail : string)
| JSONDecodeError
| OtherException (detail : string).

(** [str(e)] as the log lines interpolate it. *)
Definition str (e : exn) : string :=
  match e with
  | RequestException d => d
  | AttributeError o a => "'" +:+ o +:+ "' object has no attribute '" +:+ a +:+ "'"
  | KeyError k => "'" +:+ k +:+ "'"
  | TypeError d => d
  | ValueError d => d
  | JSONDecodeError => "Expecting value"
  | OtherException d => d
  end.

(** [isinstance(e, requests.exceptions.RequestException)] *)
Definition is_RequestException (e : exn) : bool :=
  match e with RequestException _ => true | _ => false end.

#[local] Set Warnings "-register-all".

(** What [json.loads] returns.  A JSON object is kept as the list of its
    keys and values in insertion order, the order a [dict] iterates in.
    Numbers are integers: the program only tests a number for being zero. *)
Inductive json : Type :=
| JNull
| JBool (b : bool)
| JNum (n : Z)
| JStr (s : string)
| JArr (items : list json)
| JObj (members : list (string * json)).

(** Truth value of a decoded JSON value ([if category ...]). *)
Definition truthy (v : json) : bool :=
  match v with
  | JNull => false
  | JBool b => b
  | JNum n => negb (Z.eqb n 0)
  | JStr s => negb (String.eqb s "")
  | JArr items => match items with [] => false | _ => true end
  | JObj members => match members with [] => false | _ => true end
  end.

(** [v == s] for a string literal [s]: only a string can equal it. *)
Definition eq_str (v : json) (s : string) : bool :=
  match v with JStr t => String.eqb t s | _ => false end.

(** The characters of a string, each as a one-character string. *)
Fixpoint chars (s : string) : list string :=
  match s with
  | EmptyString => []
  | String c rest => String c EmptyString :: chars rest
  end.

(** [iter(v)]: lists yield their items, strings their characters, dicts
    their keys; [None], booleans and numbers are not iterable. *)
Definition iter (v : json) : option (list json) :=
  match v with
  | JArr items => Some items
  | JStr s => Some (JStr <$> chars s)
  | JObj members => Some ((λ kv, JStr kv.1) <$> members)
  | JNull | JBool _ | JNum _ => None
  end.

(** [zip(xs, ys)] stops at the shorter argument. *)
Fixpoint zip {A B} (xs : list A) (ys : list B) : list (A * B) :=
  match xs, ys with
  | x :: xs', y :: ys' => (x, y) :: zip xs' ys'
  | _, _ => []
  end.

(** [s.lower()] on the ASCII letters. *)
Definition lower_ascii (c : ascii) : ascii :=
  let n := nat_of_ascii c in
  if (Nat.leb 65 n && Nat.leb n 90)%bool then ascii_of_nat (n + 32) else c.

Fixpoint lower (s : string) : string :=
  match s with
  | EmptyString => EmptyString
  | String c rest => String (lower_ascii c) (lower rest)
  end.

(** [needle in hay] for strings. *)
Fixpoint contains (needle hay : string) : bool :=
  String.prefix needle hay ||
  match hay with
  | EmptyString => false
  | String _ rest => contains needle rest
  end.

(** [s[:n]] *)
Definition take_str (n : nat) (s : string) : string := String.substring 0 n s.

(** [a or b] on strings: the first operand unless it is empty. *)
Definition or_str (a b : string) : string :=
  if String.eqb a "" then b else a.

End Py.

(** ** The monitor object, the trace and the monad *)

(** An entry of [self.pending_entries]: the dict built at lines 188-193
    and 301-307.  [is_telegram] is [true] when the key is present. *)
Record PendingEntry : Type := {
  title : string;
  content : string;
  link : string;
  feed_url : string;
  is_telegram : bool
}.

(** The fields [RSSMonitor.__init__] assigns (lines 88-99), without the
    thread handle and the sheet reader.  Clock readings ([time.time()])
    are integers. *)
Record RSSMonitor : Type := {
  check_interval : Z;
  sheet_refresh_interval : Z;
  last_entries : gmap string string;
  is_running : bool;
  feeds : list string;
  last_sheet_check : Z;
  pending_entries : list PendingEntry;
  max_batch_size : Z;
  batch_timeout : Z;
  last_batch_time : Z
}.

(** Lines 23-25. *)
Definition RSS_CHECK_INTERVAL : Z := 600.
Definition SHEET_REFRESH_INTERVAL : Z := 600.
Definition RSS_REQUEST_DELAY : Z := 1.

(** Lines 44-47. *)
Definition CATEGORIES : list string :=
  ["License"; "Sanction"; "AML/CFT"; "Regulatory";
   "Benchmark Exchange License Update"; "Legal structure"].

(** [RSSMonitor.__init__] (lines 87-99), [now] being [time.time()]. *)
Definition __init__ (interval now : Z) : RSSMonitor := {|
  check_interval := interval;
  sheet_refresh_interval := SHEET_REFRESH_INTERVAL;
  last_entries := ∅;
  is_running := false;
  feeds := [];
  last_sheet_check := 0;
  pending_entries := [];
  max_batch_size := 5;
  batch_timeout := 60;
  last_batch_time := now
|}.

(** The text of lines 235-241 with the four values it interpolates. *)
Record Message : Type := {
  msg_category : Py.json;
  msg_title : string;
  msg_link : string;
  msg_published : Z
}.

(** One item of [entries_text] (line 212): its number, the title and the
    first 500 characters of the content. *)
Record PromptItem : Type := {
  item_number : nat;
  item_title : string;
  item_content : string
}.

Inductive level : Type := WARNING | ERROR.

(** What the program does to the outside world, in order.  Of the log
    records the trace keeps those at WARNING and ERROR; the INFO and DEBUG
    records take no part in the control flow. *)
Inductive event : Type :=
| Log (lvl : level) (text : string)
| HttpGet (url : string)
| FeedParse (url : string)
| SheetGet
| ChatCompletion (model : string) (items : list PromptItem)
| SingleCompletion (model : string) (item_title item_content : string)
| SendMessage (chat_id : Z) (message : Message) (delivered : bool)
| Sleep (seconds : Z).

Record machine : Type := {
  self : RSSMonitor;
  trace : list event
}.

(** A statement: it runs on the machine and either returns a value or
    raises.  Assignments made before a [raise] stay made. *)
Definition M (A : Type) : Type := machine → (Py.exn + A) * machine.

#[global] Instance M_ret : MRet M := λ A x m, (inr x, m).
#[global] Instance M_bind : MBind M := λ A B f c m,
  match c m with
  | (inl e, m') => (inl e, m')
  | (inr x, m') => f x m'
  end.

Definition raise {A} (e : Py.exn) : M A := λ m, (inl e, m).

(** [try: body except Exception as e: handler e] *)
Definition try_except {A} (body : M A) (handler : Py.exn → M A) : M A := λ m,
  match body m with
  | (inl e, m') => handler e m'
  | (inr x, m') => (inr x, m')
  end.

(** [try: body finally: cleanup].  The exception of [body], if any, is
    raised again after [cleanup]; an exception of [cleanup] replaces it. *)
Definition try_finally {A} (body : M A) (cleanup : M unit) : M A := λ m,
  match body m with
  | (r, m') =>
      match cleanup m' with
      | (inl e, m'') => (inl e, m'')
      | (inr _, m'') => (r, m'')
      end
  end.

Definition get_self : M RSSMonitor := λ m, (inr (self m), m).
Definition modify_self (f : RSSMonitor → RSSMonitor) : M unit := λ m,
  (inr tt, {| self := f (self m); trace := trace m |}).
Definition emit (e : event) : M unit := λ m,
  (inr tt, {| self := self m; trace := trace m ++ [e] |}).

Definition logger_error (text : string) : M unit := emit (Log ERROR text).
Definition logger_warning (text : string) : M unit := emit (Log WARNING text).
Definition time_sleep (seconds : Z) : M unit := emit (Sleep seconds).

(** [for x in xs: body x] *)
Fixpoint for_each {A} (xs : list A) (body : A → M unit) : M unit :=
  match xs with
  | [] => mret tt
  | x :: rest => body x;; for_each rest body
  end.

(** Field assignments. *)
Definition set_last_entries (v : gmap string string) (s : RSSMonitor) : RSSMonitor :=
  {| check_interval := check_interval s;
     sheet_refresh_interval := sheet_refresh_interval s;
     last_entries := v; is_running := is_running s; feeds := feeds s;
     last_sheet_check := last_sheet_check s;
     pending_entries := pending_entries s;
     max_batch_size := max_batch_size s; batch_timeout := batch_timeout s;
     last_batch_time := last_batch_time s |}.

Definition set_pending_entries (v : list PendingEntry) (s : RSSMonitor) : RSSMonitor :=
  {| check_interval := check_interval s;
     sheet_refresh_interval := sheet_refresh_interval s;
     last_entries := last_entries s; is_running := is_running s;
     feeds := feeds s; last_sheet_check := last_sheet_check s;
     pending_entries := v;
     max_batch_size := max_batch_size s; batch_timeout := batch_timeout s;
     last_batch_time := last_batch_time s |}.

Definition set_last_batch_time (v : Z) (s : RSSMonitor) : RSSMonitor :=
  {| check_interval := check_interval s;
     sheet_refresh_interval := sheet_refresh_interval s;
     last_entries := last_entries s; is_running := is_running s;
     feeds := feeds s; last_sheet_check := last_sheet_check s;
     pending_entries := pending_entries s;
     max_batch_size := max_batch_size s; batch_timeout := batch_timeout s;
     last_batch_time := v |}.

Definition set_feeds (v : list string) (s : RSSMonitor) : RSSMonitor :=
  {| check_interval := check_interval s;
     sheet_refresh_interval := sheet_refresh_interval s;
     last_entries := last_entries s; is_running := is_running s;
     feeds := v; last_sheet_check := last_sheet_check s;
     pending_entries := pending_entries s;
     max_batch_size := max_batch_size s; batch_timeout := batch_timeout s;
     last_batch_time := last_batch_time s |}.

Definition set_last_sheet_check (v : Z) (s : RSSMonitor) : RSSMonitor :=
  {| check_interval := check_interval s;
     sheet_refresh_interval := sheet_refresh_interval s;
     last_entries := last_entries s; is_running := is_running s;
     feeds := feeds s; last_sheet_check := v;
     pending_entries := pending_entries s;
     max_batch_size := max_batch_size s; batch_timeout := batch_timeout s;
     last_batch_time := last_batch_time s |}.

(** ** Attribute lookup on the monitor *)

(** The names bound on an [RSSMonitor] instance: the methods of the class
    body (lines 87-310) and the fields [__init__] assigns.  The class has
    no base class and no [__getattr__]. *)
Definition RSSMonitor_attributes : list string :=
  ["__init__"; "start_monitoring"; "stop_monitoring"; "_monitor_loop";
   "_check_rss"; "_process_pending_entries"; "categorize_with_chatgpt";
   "_parse_telegram_channel";
   "check_interval"; "sheet_refresh_interval"; "last_entries"; "is_running";
   "monitor_thread"; "sheet_reader"; "feeds"; "last_sheet_check";
   "pending_entries"; "max_batch_size"; "batch_timeout"; "last_batch_time"].

(** [self.<name>]: the lookup that precedes a call through [self].  A name
    that is not bound raises before any argument is passed. *)
Definition getattr_self (name : string) : M unit :=
  if bool_decide (name ∈ RSSMonitor_attributes) then mret tt
  else raise (Py.AttributeError "RSSMonitor" name).

(** ** The notifier: [load_chat_ids] and [send_telegram_message] *)

(** What the notifier meets: the chat-id file ([None] when it does not
    exist; a line is [None] when [int] rejects it) and, for the [i]-th call
    of [bot.send_message], whether it returns ([true]) or raises. *)
Record chat_obs : Type := {
  chat_file : option (list (option Z));
  bot_send : nat → Z → bool
}.

Fixpoint parse_lines (lines : list (option Z)) : M (list Z) :=
  match lines with
  | [] => mret []
  | Some n :: rest => ns ← parse_lines rest; mret (n :: ns)
  | None :: _ => raise (Py.ValueError "invalid literal for int() with base 10")
  end.

(** Lines 336-341. *)
Definition load_chat_ids (o : chat_obs) : M (list Z) :=
  match chat_file o with
  | None => mret []
  | Some lines => parse_lines lines
  end.

(** Lines 351-356, from the [i]-th call on. *)
Fixpoint send_each (o : chat_obs) (message : Message) (i : nat)
    (chat_ids : list Z) : M unit :=
  match chat_ids with
  | [] => mret tt
  | chat_id :: rest =>
      try_except
        (if bot_send o i chat_id
         then emit (SendMessage chat_id message true)
         else emit (SendMessage chat_id message false);;
              raise (Py.OtherException "send_message failed"))
        (λ e, logger_error ("Failed to send message to chat ID "
                              +:+ pretty chat_id +:+ ": " +:+ Py.str e));;
      send_each o message (S i) rest
  end.

(** Lines 347-356: the module-level function. *)
Definition send_telegram_message (o : chat_obs) (message : Message) : M unit :=
  chat_ids ← load_chat_ids o;
  send_each o message 0 chat_ids.

(** ** The feed list: [GoogleSheetReader.get_rss_feeds] *)

(** Lines 65-76.  [sheet] is the outcome of the Sheets request: [None]
    when it raises, else [result.get('values', [])]. *)
Definition get_rss_feeds (sheet : option (list (list string))) : M (list string) :=
  try_except
    (emit SheetGet;;
     values ← match sheet with
              | Some v => mret v
              | None => raise (Py.OtherException "sheets request failed")
              end;
     mret (omap (λ row : list string,
                   match row with
                   | cell :: _ =>
                       if Py.contains "http" (Py.lower cell) then Some cell else None
                   | [] => None
                   end) values))
    (λ e, logger_error ("Error fetching RSS feeds: " +:+ Py.str e);; mret []).

(** ** The change detector: [_check_rss] and [_parse_telegram_channel] *)

Inductive http_result : Type :=
| GetRaises (detail : string)
| Response (status_code : Z) (text : string).

(** What [feedparser.parse] returns: the malformation flag and the
    entries, each the mapping of its string-valued keys. *)
Record FeedParserDict : Type := {
  bozo : bool;
  entries : list (gmap string string)
}.

(** A [div.tgme_widget_message] block as lines 290-294 read it: the
    [a.tgme_widget_message_date] element if there is one, with its [href]
    attribute if it has one, and the text of the
    [div.tgme_widget_message_text] element if there is one. *)
Record tg_message : Type := {
  message_link : option (option string);
  message_text : option string
}.

(** What one call of [_check_rss] meets: the answer to [requests.get],
    what [feedparser.parse(feed_url)] returns (it fetches the URL on its
    own) and the message blocks found in [response.text]. *)
Record feed_obs : Type := {
  response : http_result;
  feed : FeedParserDict;
  soup : list tg_message
}.

(** [entry.<key>]: attribute access on a feedparser entry. *)
Definition entry_getattr (entry : gmap string string) (key : string) : M string :=
  match entry !! key with
  | Some v => mret v
  | None => raise (Py.AttributeError "FeedParserDict" key)
  end.

(** [entry.get(key, '')] *)
Definition entry_get (entry : gmap string string) (key : string) : string :=
  default "" (entry !! key).

(** [response.raise_for_status()]: requests raises [HTTPError] for the
    statuses 400 to 599 and returns for every other status. *)
Definition raise_for_status (status_code : Z) : M unit :=
  if (Z.leb 400 status_code && Z.ltb status_code 600)%bool
  then raise (Py.RequestException "HTTPError")
  else mret tt.

(** The test of lines 183 and 296:
    [feed_url not in self.last_entries or self.last_entries[feed_url] != entry_id] *)
Definition is_new (st : RSSMonitor) (feed_url entry_id : string) : bool :=
  match last_entries st !! feed_url with
  | None => true
  | Some seen => negb (String.eqb seen entry_id)
  end.

Definition append_pending (e : PendingEntry) : M unit :=
  modify_self (λ st, set_pending_entries (pending_entries st ++ [e]) st).

(** Lines 279-310. *)
Definition _parse_telegram_channel (messages : list tg_message)
    (feed_url : string) : M unit :=
  try_except
    (match messages with
     | [] => logger_warning ("No messages found in Telegram channel: " +:+ feed_url)
     | latest_message :: _ =>
         match message_link latest_message, message_text latest_message with
         | Some link_tag, Some text =>
             entry_id ← match link_tag with
                        | Some href => mret href
                        | None => raise (Py.KeyError "href")
                        end;
             st ← get_self;
             if is_new st feed_url entry_id then
               modify_self (λ st, set_last_entries (<[feed_url := entry_id]> (last_entries st)) st);;
               append_pending {| title := Py.take_str 100 text;
                                 content := text;
                                 link := entry_id;
                                 feed_url := feed_url;
                                 is_telegram := true |}
             else mret tt
         | _, _ => mret tt
         end
     end)
    (λ e, logger_error ("Error parsing Telegram channel " +:+ feed_url +:+ ": " +:+ Py.str e)).

(** Lines 178-193: the regular path, on the parsed feed. *)
Definition check_latest_entry (parsed : FeedParserDict) (feed_url : string) : M unit :=
  match entries parsed with
  | [] => mret tt
  | latest_entry :: _ =>
      if bool_decide (latest_entry = ∅) then mret tt
      else
        entry_id ← (if bool_decide (is_Some (latest_entry !! "id"))
                    then entry_getattr latest_entry "id"
                    else entry_getattr latest_entry "link");
        st ← get_self;
        if is_new st feed_url entry_id then
          modify_self (λ st, set_last_entries (<[feed_url := entry_id]> (last_entries st)) st);;
          let content := Py.or_str (entry_get latest_entry "summary")
                                   (entry_get latest_entry "description") in
          entry_title ← entry_getattr latest_entry "title";
          entry_link ← entry_getattr latest_entry "link";
          append_pending {| title := entry_title;
                            content := content;
                            link := entry_link;
                            feed_url := feed_url;
                            is_telegram := false |}
        else mret tt
  end.

(** Lines 195-198: the two [except] clauses of [_check_rss]. *)
Definition check_rss_except (feed_url : string) (e : Py.exn) : M unit :=
  if Py.is_RequestException e
  then logger_error ("Request error for " +:+ feed_url +:+ ": " +:+ Py.str e)
  else logger_error ("Error checking feed " +:+ feed_url +:+ ": " +:+ Py.str e).

(** Lines 138-198. *)
Definition _check_rss (feed_url : string) (o : feed_obs) : M unit :=
  try_except
    (emit (HttpGet feed_url);;
     resp ← match response o with
            | GetRaises d => raise (Py.RequestException d)
            | Response status_code text => mret (status_code, text)
            end;
     raise_for_status resp.1;;
     emit (FeedParse feed_url);;
     let parsed := feed o in
     if bozo parsed then
       logger_error "Feed parsing exception";;
       if Py.contains "t.me/s/" feed_url then
         _parse_telegram_channel (soup o) feed_url
       else
         match entries parsed with
         | [] => logger_warning ("No entries found for feed: " +:+ feed_url)
         | _ :: _ => check_latest_entry parsed feed_url
         end
     else check_latest_entry parsed feed_url)
    (check_rss_except feed_url).

(** ** The batch flush: [_process_pending_entries] *)

(** The outcome of lines 224-230: the request raises (or the response has
    no usable choice), [json.loads] rejects the content, or it decodes. *)
Inductive bulk_reply : Type :=
| CreateRaises (detail : string)
| NotJson
| Json (v : Py.json).

(** What one flush meets: whether lines 206-207 (the import and the client
    construction) succeed, the classifier's reply, [datetime.now()] and the
    [time.time()] of line 250. *)
Record flush_obs : Type := {
  openai_ok : bool;
  reply : bulk_reply;
  dispatch_time : Z;
  flush_time : Z
}.

(** Lines 210-212: [enumerate(self.pending_entries, start)]. *)
Fixpoint entries_text (start : nat) (batch : list PendingEntry) : list PromptItem :=
  match batch with
  | [] => []
  | entry :: rest =>
      {| item_number := start;
         item_title := title entry;
         item_content := Py.take_str 500 (content entry) |}
      :: entries_text (S start) rest
  end.

(** The guard of line 234: [category and category != 'None']. *)
Definition notifiable (category : Py.json) : bool :=
  Py.truthy category && negb (Py.eq_str category "None").

(** Lines 234-243: the body of the loop over the zipped pairs.  Line 242
    is [self.send_telegram_message(message)]; the lookup of the name on
    [self] comes first, and [RSSMonitor] binds no such name
    ([send_telegram_message] of line 347 is a module-level function), so
    the statement ends in the lookup. *)
Definition notify_entry (o : flush_obs) (pair : PendingEntry * Py.json) : M unit :=
  let '(entry, category) := pair in
  if notifiable category then
    let message := {| msg_category := category;
                      msg_title := title entry;
                      msg_link := link entry;
                      msg_published := dispatch_time o |} in
    getattr_self "send_telegram_message"
  else mret tt.

(** Lines 200-250. *)
Definition _process_pending_entries (o : flush_obs) : M unit :=
  st ← get_self;
  match pending_entries st with
  | [] => mret tt
  | _ :: _ =>
      try_finally
        (try_except
           ((if openai_ok o then mret tt
             else raise (Py.OtherException "openai client unavailable"));;
            emit (ChatCompletion "gpt-3.5-turbo" (entries_text 1 (pending_entries st)));;
            categories ← match reply o with
                         | CreateRaises d => raise (Py.OtherException d)
                         | NotJson => raise Py.JSONDecodeError
                         | Json v => mret v
                         end;
            st ← get_self;
            labels ← match Py.iter categories with
                     | Some labels => mret labels
                     | None => raise (Py.TypeError "zip argument #2 must support iteration")
                     end;
            for_each (Py.zip (pending_entries st) labels) (notify_entry o))
           (λ e, logger_error ("Error in batch processing: " +:+ Py.str e)))
        (modify_self (set_pending_entries []);;
         modify_self (set_last_batch_time (flush_time o)))
  end.

(** ** The single-entry classifier: [categorize_with_chatgpt] *)

(** Lines 252-277.  [answer] is [None] when anything in lines 255-273
    raises, else the stripped content of the reply. *)
Definition categorize_with_chatgpt (entry_title entry_content : string)
    (answer : option string) : M (option string) :=
  try_except
    (emit (SingleCompletion "gpt-4o-mini" entry_title entry_content);;
     category ← match answer with
                | Some c => mret c
                | None => raise (Py.OtherException "completion failed")
                end;
     mret (if (String.eqb category "None"
               || negb (bool_decide (category ∈ CATEGORIES)))%bool
           then None else Some category))
    (λ e, logger_error ("Error in ChatGPT categorization: " +:+ Py.str e);; mret None).

(** ** The loop driver: [_monitor_loop] *)

(** What one turn of the loop meets: [time.time()] at line 118, the
    outcome of the Sheets request, the observations of the successive
    [_check_rss] calls and those of the flush. *)
Record iteration_obs : Type := {
  current_time : Z;
  sheet : option (list (list string));
  checks : nat → feed_obs;
  flush : flush_obs
}.

(** Lines 125-127, the [i]-th call of the sweep onwards. *)
Fixpoint poll_feeds (checks : nat → feed_obs) (i : nat) (urls : list string) : M unit :=
  match urls with
  | [] => mret tt
  | feed_url :: rest =>
      _check_rss feed_url (checks i);;
      time_sleep RSS_REQUEST_DELAY;;
      poll_feeds checks (S i) rest
  end.

(** The condition of lines 129-130. *)
Definition due_for_flush (st : RSSMonitor) (current_time : Z) : bool :=
  Z.geb (Z.of_nat (length (pending_entries st))) (max_batch_size st)
  || (match pending_entries st with [] => false | _ :: _ => true end
      && Z.geb (current_time - last_batch_time st) (batch_timeout st)).

(** Lines 120-123. *)
Definition refresh_feeds (o : iteration_obs) : M unit :=
  st ← get_self;
  if Z.geb (current_time o - last_sheet_check st) (sheet_refresh_interval st) then
    fresh ← get_rss_feeds (sheet o);
    modify_self (set_feeds fresh);;
    modify_self (set_last_sheet_check (current_time o))
  else mret tt.

(** Lines 129-131. *)
Definition batch_check (o : iteration_obs) : M unit :=
  st ← get_self;
  if due_for_flush st (current_time o) then _process_pending_entries (flush o)
  else mret tt.

(** Lines 117-136: the body of the [while] loop. *)
Definition monitor_iteration (o : iteration_obs) : M unit :=
  try_except
    (refresh_feeds o;;
     st ← get_self;
     poll_feeds (checks o) 0 (feeds st);;
     batch_check o)
    (λ e, logger_error ("Error in RSS monitoring: " +:+ Py.str e));;
  st ← get_self;
  time_sleep (Z.min (check_interval st) (sheet_refresh_interval st)).

(** Lines 115-136, for the turns whose observations are given; the loop
    stops when [is_running] is found cleared. *)
Fixpoint _monitor_loop (turns : list iteration_obs) : M unit :=
  match turns with
  | [] => mret tt
  | o :: rest =>
      st ← get_self;
      if is_running st then monitor_iteration o;; _monitor_loop rest
      else mret tt
  end.

(** Running a statement: the monitor and the trace it leaves, and whether
    it returned. *)
Definition run {A} (c : M A) (st : RSSMonitor) : (Py.exn + A) * machine :=
  c {| self := st; trace := [] |}.

Definition final {A} (c : M A) (st : RSSMonitor) : RSSMonitor := self (run c st).2.
Definition events {A} (c : M A) (st : RSSMonitor) : list event := trace (run c st).2.
Definition returns {A} (c : M A) (st : RSSMonitor) : Prop :=
  ∃ x, (run c st).1 = inr x.

(** The deliveries of a trace: the [bot.send_message] calls that returned. *)
Definition deliveries (t : list event) : list (Z * Message) :=
  omap (λ e, match e with
             | SendMessage chat_id message true => Some (chat_id, message)
             | _ => None
             end) t.

(** The delivery attempts of a trace, delivered or not. *)
Definition attempts (t : list event) : list Z :=
  omap (λ e, match e with
             | SendMessage chat_id _ _ => Some chat_id
             | _ => None
             end) t.

(** The bulk classification calls of a trace. *)
Definition bulk_calls (t : list event) : list (list PromptItem) :=
  omap (λ e, match e with
             | ChatCompletion _ items => Some items
             | _ => None
             end) t.

(** The records logged at ERROR. *)
Definition errors (t : list event) : list string :=
  omap (λ e, match e with Log ERROR text => Some text | _ => None end) t.

(** ** The chat-id registry: [save_chat_id] and [collect_chat_id] *)

(** The chat-id file is kept as [load_chat_ids] sees it: [None] when it
    does not exist, else its lines, each ended by a newline as
    [save_chat_id] writes them; a line is [None] when [int] rejects it. *)

(** The list comprehension of line 339, outside the monad. *)
Fixpoint read_lines (lines : list (option Z)) : Py.exn + list Z :=
  match lines with
  | [] => inr []
  | Some n :: rest =>
      match read_lines rest with
      | inr ns => inr (n :: ns)
      | inl e => inl e
      end
  | None :: _ => inl (Py.ValueError "invalid literal for int() with base 10")
  end.

(** Lines 336-341 on a given file. *)
Definition read_chat_ids (file : option (list (option Z))) : Py.exn + list Z :=
  match file with
  | None => inr []
  | Some lines => read_lines lines
  end.

(** Lines 343-345: the file is opened for appending, which creates it
    when it is missing, and the id is written on a line of its own. *)
Definition save_chat_id (chat_id : Z) (file : option (list (option Z)))
    : option (list (option Z)) :=
  Some (default [] file ++ [Some chat_id]).

(** [message.chat] as [collect_chat_id] reads it. *)
Record Chat : Type := {
  chat_ident : Z;
  chat_type : string
}.

(** What a call of [collect_chat_id] leaves: how it ended, the file, and
    whether [bot.reply_to] was called. *)
Record collected : Type := {
  outcome : Py.exn + unit;
  file_after : option (list (option Z));
  replied : bool
}.

(** Lines 358-373.  [reply_ok] tells whether [bot.reply_to] returns. *)
Definition collect_chat_id (chat : Chat) (reply_ok : bool)
    (file : option (list (option Z))) : collected :=
  match read_chat_ids file with
  | inl e => {| outcome := inl e; file_after := file; replied := false |}
  | inr chat_ids =>
      if bool_decide (chat_type chat ∈ ["group"; "supergroup"]) then
        if bool_decide (chat_ident chat ∉ chat_ids) then
          {| outcome := if reply_ok then inr tt
                        else inl (Py.OtherException "reply_to failed");
             file_after := save_chat_id (chat_ident chat) file;
             replied := true |}
        else {| outcome := inr tt; file_after := file; replied := false |}
      else {| outcome := inr tt; file_after := file; replied := false |}
  end.

(** ** The keyword table: [GoogleSheetReader.get_keywords] *)

(** [s.split(sep)] for a non-empty [sep], scanning from the left; [piece]
    is the part of the current piece already read and [fuel] bounds the
    characters left. *)
Fixpoint str_split_fuel (fuel : nat) (sep piece s : string) : list string :=
  match fuel with
  | O => [piece +:+ s]
  | S fuel' =>
      match s with
      | EmptyString => [piece]
      | String c rest =>
          if String.prefix sep s
          then piece :: str_split_fuel fuel' sep ""
                          (String.substring (String.length sep)
                             (String.length s - String.length sep) s)
          else str_split_fuel fuel' sep (piece +:+ String c "") rest
      end
  end.

Definition str_split (sep s : string) : list string :=
  str_split_fuel (String.length s) sep "" s.

(** [sep.join(pieces)] *)
Fixpoint str_join (sep : string) (pieces : list string) : string :=
  match pieces with
  | [] => ""
  | [piece] => piece
  | piece :: rest => piece +:+ sep +:+ str_join sep rest
  end.

(** The dict comprehension of line 83 over the rows after the header:
    empty rows are skipped, [row[1]] of a one-cell row raises
    [IndexError] (kept as [OtherException] with its message), and a later
    row replaces an earlier one with the same first cell. *)
Fixpoint keyword_rows (rows : list (list string))
    (keywords : gmap string (list string)) : Py.exn + gmap string (list string) :=
  match rows with
  | [] => inr keywords
  | [] :: rest => keyword_rows rest keywords
  | [_] :: _ => inl (Py.OtherException "list index out of range")
  | (key :: cell :: _) :: rest =>
      keyword_rows rest (<[key := str_split ", " cell]> keywords)
  end.

(** Lines 78-84.  [sheet] is the outcome of the Sheets request, which no
    handler surrounds here. *)
Definition get_keywords (sheet : option (list (list string)))
    : Py.exn + gmap string (list string) :=
  match sheet with
  | None => inl (Py.OtherException "sheets request failed")
  | Some values => keyword_rows (tail values) ∅
  end.

(** * Vocabulary of the statements *)

(** ** Outcomes of a flush *)

(** The exception of line 242. *)
Definition unbound_send : Py.exn :=
  Py.AttributeError "RSSMonitor" "send_telegram_message".

(** The record the handler of lines 245-246 logs. *)
Definition batch_error (e : Py.exn) : event :=
  Log ERROR ("Error in batch processing: " +:+ Py.str e).

(** The events of a flush of the non-empty batch [batch], case by case. *)
Inductive flush_outcome (o : flush_obs) (batch : list PendingEntry) : list event → Prop :=
| flush_no_client :
    openai_ok o = false →
    flush_outcome o batch [batch_error (Py.OtherException "openai client unavailable")]
| flush_request_failed d :
    openai_ok o = true → reply o = CreateRaises d →
    flush_outcome o batch
      [ChatCompletion "gpt-3.5-turbo" (entries_text 1 batch);
       batch_error (Py.OtherException d)]
| flush_not_json :
    openai_ok o = true → reply o = NotJson →
    flush_outcome o batch
      [ChatCompletion "gpt-3.5-turbo" (entries_text 1 batch);
       batch_error Py.JSONDecodeError]
| flush_not_iterable v :
    openai_ok o = true → reply o = Json v → Py.iter v = None →
    flush_outcome o batch
      [ChatCompletion "gpt-3.5-turbo" (entries_text 1 batch);
       batch_error (Py.TypeError "zip argument #2 must support iteration")]
| flush_all_skipped v labels :
    openai_ok o = true → reply o = Json v → Py.iter v = Some labels →
    forallb (λ p, negb (notifiable p.2)) (Py.zip batch labels) = true →
    flush_outcome o batch [ChatCompletion "gpt-3.5-turbo" (entries_text 1 batch)]
| flush_send_unbound v labels :
    openai_ok o = true → reply o = Json v → Py.iter v = Some labels →
    forallb (λ p, negb (notifiable p.2)) (Py.zip batch labels) = false →
    flush_outcome o batch
      [ChatCompletion "gpt-3.5-turbo" (entries_text 1 batch);
       batch_error unbound_send].

(** The monitor after the [finally] clause of lines 247-250. *)
Definition flushed (o : flush_obs) (st : RSSMonitor) : RSSMonitor :=
  set_last_batch_time (flush_time o) (set_pending_entries [] st).

(** ** What the change detector leaves alone *)

(** A check changes the last-seen index and the pending batch only. *)
Definition same_settings (st st' : RSSMonitor) : Prop :=
  check_interval st' = check_interval st ∧
  sheet_refresh_interval st' = sheet_refresh_interval st ∧
  is_running st' = is_running st ∧
  feeds st' = feeds st ∧
  last_sheet_check st' = last_sheet_check st ∧
  max_batch_size st' = max_batch_size st ∧
  batch_timeout st' = batch_timeout st ∧
  last_batch_time st' = last_batch_time st.

(** Events that are neither a classification call nor a delivery attempt. *)
Definition quiet (evs : list event) : Prop :=
  bulk_calls evs = [] ∧ attempts evs = [].

(** [c] only appends to the pending batch, keeps the settings and makes no
    classification call and no delivery attempt, whether it returns or
    raises. *)
Definition appends_only {A} (c : M A) : Prop :=
  ∀ m, ∃ evs news,
    trace (c m).2 = trace m ++ evs ∧ quiet evs ∧
    same_settings (self m) (self (c m).2) ∧
    pending_entries (self (c m).2) = pending_entries (self m) ++ news.

(** [c] returns whatever the machine it starts from. *)
Definition total {A} (c : M A) : Prop := ∀ m, ∃ x, (c m).1 = inr x.

(** The batch counts as classification-failed when the handler of line
    245 has run, that is when its record is in the log. *)
Definition classification_failed (o : flush_obs) (st : RSSMonitor) : Prop :=
  ∃ e, batch_error e ∈ events (_process_pending_entries o) st.

(** Unusable answers of the classifier: the client cannot be built, the
    request raises, the content is not JSON, or it decodes to a value that
    cannot be iterated over. *)
Definition unusable_reply (o : flush_obs) : Prop :=
  openai_ok o = false ∨ (∃ d, reply o = CreateRaises d) ∨ reply o = NotJson
  ∨ (∃ v, reply o = Json v ∧ Py.iter v = None).

(** ** Vocabulary for the notifier *)

(** The chat ids, among [chat_ids] called from position [i] on, whose
    [bot.send_message] returns. *)
Fixpoint delivered_to (o : chat_obs) (i : nat) (chat_ids : list Z) : list Z :=
  match chat_ids with
  | [] => []
  | chat_id :: rest =>
      if bot_send o i chat_id then chat_id :: delivered_to o (S i) rest
      else delivered_to o (S i) rest
  end.

(** ** Outcomes of the HTTP fetch *)

(** Line 145 or line 146 raises: [requests.get] fails, or the status is
    one [raise_for_status] rejects. *)
Definition fetch_fails (o : feed_obs) : Prop :=
  match response o with
  | GetRaises _ => True
  | Response status_code _ => 400 ≤ status_code < 600
  end.

(** Lines 145-146 return. *)
Definition fetch_succeeds (o : feed_obs) : Prop :=
  match response o with
  | GetRaises _ => False
  | Response status_code _ => ¬ (400 ≤ status_code < 600)
  end.

(** The identity of an entry (line 181): its id, else its link. *)
Definition identity (entry : gmap string string) : option string :=
  match entry !! "id" with
  | Some i => Some i
  | None => entry !! "link"
  end.

(** The candidate built at lines 188-193. *)
Definition candidate (entry : gmap string string) (feed_url entry_title entry_link : string)
    : PendingEntry :=
  {| title := entry_title;
     content := Py.or_str (entry_get entry "summary") (entry_get entry "description");
     link := entry_link;
     feed_url := feed_url;
     is_telegram := false |}.

(** ** Concrete inputs *)

Module Example.

Definition url : string := "http://feed.example/rss".

Definition monitor : RSSMonitor := __init__ RSS_CHECK_INTERVAL 0.

Definition entry_123 : gmap string string :=
  {[ "id" := "123"; "link" := "http://feed.example/123";
     "title" := "Licence granted"; "summary" := "A licence was granted." ]}.

(** An item without a title, as RSS 2.0 allows and microblog feeds
    publish. *)
Definition entry_untitled : gmap string string :=
  {[ "id" := "9"; "link" := "http://feed.example/9";
     "summary" := "A post without a title." ]}.

Definition pending_123 : PendingEntry :=
  {| title := "Licence granted"; content := "A licence was granted.";
     link := "http://feed.example/123"; feed_url := url; is_telegram := false |}.

Definition pending_b : PendingEntry :=
  {| title := "Second"; content := "Another entry.";
     link := "http://feed.example/b"; feed_url := url; is_telegram := false |}.

Definition parsed (es : list (gmap string string)) : FeedParserDict :=
  {| bozo := false; entries := es |}.

Definition fetched (status_code : Z) (es : list (gmap string string)) : feed_obs :=
  {| response := Response status_code "<rss/>"; feed := parsed es; soup := [] |}.

Definition unreachable : feed_obs :=
  {| response := GetRaises "Connection refused"; feed := parsed [entry_123]; soup := [] |}.

Definition answer (r : bulk_reply) : flush_obs :=
  {| openai_ok := true; reply := r; dispatch_time := 100; flush_time := 120 |}.

Definition labels (ls : list string) : bulk_reply := Json (Py.JArr (Py.JStr <$> ls)).

Definition two_pending : RSSMonitor := set_pending_entries [pending_123; pending_b] monitor.
Definition one_pending : RSSMonitor := set_pending_entries [pending_123] monitor.

Definition message : Message :=
  {| msg_category := Py.JStr "License"; msg_title := "Licence granted";
     msg_link := "http://feed.example/123"; msg_published := 100 |}.

Definition chats : chat_obs :=
  {| chat_file := Some [Some 11; Some 22; Some 33];
     bot_send := λ _ chat_id, negb (Z.eqb chat_id 22) |}.

Definition turn (now : Z) (s : option (list (list string))) : iteration_obs :=
  {| current_time := now; sheet := s;
     checks := λ _, fetched 200 [entry_123];
     flush := answer (labels ["None"]) |}.

Definition with_feeds : RSSMonitor := set_feeds [url] monitor.

Definition six_feeds : list string :=
  ["http://a.example/rss"; "http://b.example/rss"; "http://c.example/rss";
   "http://d.example/rss"; "http://e.example/rss"; "http://f.example/rss"].

Definition sweep_turn : iteration_obs :=
  {| current_time := 30; sheet := Some [];
     checks := λ _, fetched 200 [entry_123];
     flush := answer (labels ["None"; "None"; "None"; "None"; "None"; "None"]) |}.

Definition channel : string := "https://t.me/s/some_channel".

Definition post : tg_message :=
  {| message_link := Some (Some "https://t.me/some_channel/42");
     message_text := Some "A new licence regime was announced today." |}.

Definition post_without_href : tg_message :=
  {| message_link := Some None; message_text := Some "No permalink here." |}.



Definition keyword_sheet : list (list string) :=
  [["Category"; "Keywords"];
   ["License"; "permit, licence"];
   [];
   ["AML/CFT"; "kyc, laundering, cft"; "note"];
   ["License"; "authorisation, licence"]].

End Example.

(** ** What a check finds and what it records *)

(** The regular path (lines 179-193): the identity of the first entry
    and, when the entry has the title and the link lines 189 and 191
    read, the candidate. *)
Definition latest_found (parsed : FeedParserDict) (feed_url : string)
    : option (string * option PendingEntry) :=
  match entries parsed with
  | [] => None
  | entry :: _ =>
      match identity entry with
      | None => None
      | Some ident =>
          Some (ident,
                match entry !! "title", entry !! "link" with
                | Some entry_title, Some entry_link =>
                    Some (candidate entry feed_url entry_title entry_link)
                | _, _ => None
                end)
      end
  end.

(** The channel path (lines 283-307): the permalink of the first message
    block and the candidate made of its text. *)
Definition telegram_found (messages : list tg_message) (feed_url : string)
    : option (string * option PendingEntry) :=
  match messages with
  | [] => None
  | latest_message :: _ =>
      match message_link latest_message, message_text latest_message with
      | Some (Some href), Some text =>
          Some (href, Some {| title := Py.take_str 100 text;
                              content := text;
                              link := href;
                              feed_url := feed_url;
                              is_telegram := true |})
      | _, _ => None
      end
  end.

(** What [_check_rss] finds, by the path it takes. *)
Definition found (feed_url : string) (o : feed_obs)
    : option (string * option PendingEntry) :=
  match response o with
  | GetRaises _ => None
  | Response status_code _ =>
      if (400 <=? status_code) && (status_code <? 600) then None
      else if bozo (feed o) && Py.contains "t.me/s/" feed_url
           then telegram_found (soup o) feed_url
           else latest_found (feed o) feed_url
  end.

(** Recording what was found: an identity that is new for the feed is
    stored, and the candidate, if there is one, joins the batch. *)
Definition record_found (feed_url : string)
    (f : option (string * option PendingEntry)) (st : RSSMonitor) : RSSMonitor :=
  match f with
  | None => st
  | Some (ident, cand) =>
      if is_new st feed_url ident then
        let st1 := set_last_entries (<[feed_url := ident]> (last_entries st)) st in
        match cand with
        | Some e => set_pending_entries (pending_entries st1 ++ [e]) st1
        | None => st1
        end
      else st
  end.

(** A channel page from which lines 283-294 get no identity: no message
    block, or a first block without the permalink element, without its
    [href], or without the text element. *)
Definition unusable_channel_page (messages : list tg_message) : Prop :=
  match messages with
  | [] => True
  | latest_message :: _ =>
      message_link latest_message = None ∨
      message_link latest_message = Some None ∨
      message_text latest_message = None
  end.

(** The observation [o] with the malformation flag set to [b]. *)
Definition with_bozo (b : bool) (o : feed_obs) : feed_obs :=
  {| response := response o;
     feed := {| bozo := b; entries := entries (feed o) |};
     soup := soup o |}.

(** ** What a flush and a turn of the loop keep *)

(** The fields no statement of the loop assigns. *)
Definition same_config (st st' : RSSMonitor) : Prop :=
  check_interval st' = check_interval st ∧
  sheet_refresh_interval st' = sheet_refresh_interval st ∧
  is_running st' = is_running st ∧
  max_batch_size st' = max_batch_size st ∧
  batch_timeout st' = batch_timeout st.

(** The monitor moves on: the configuration is kept and every feed that
    has a stored identity still has one. *)
Definition evolves (st st' : RSSMonitor) : Prop :=
  same_config st st' ∧ dom (last_entries st) ⊆ dom (last_entries st').

(** [c] makes the monitor move on, whether it returns or raises. *)
Definition keeps {A} (c : M A) : Prop :=
  ∀ m, evolves (self m) (self (c m).2).

(** The URLs lines 70-71 select from the sheet values. *)
Definition selected_feeds (values : list (list string)) : list string :=
  omap (λ row : list string,
          match row with
          | cell :: _ => if Py.contains "http" (Py.lower cell) then Some cell else None
          | [] => None
          end) values.

(** ** What a sweep fetches *)




(** * Properties *)

(** ** The monad *)

Lemma bind_unfold {A B} (c : M A) (k : A → M B) (m : machine) :
  (c ≫= k) m = match c m with
               | (inl e, m') => (inl e, m')
               | (inr x, m') => k x m'
               end.
Proof. reflexivity. Qed.

(** Unfolds the monad's operations and runs what can be run. *)
Ltac run_m :=
  unfold mbind, M_bind, mret, M_ret, raise, try_except, try_finally,
    get_self, modify_self, append_pending, logger_error, logger_warning,
    time_sleep, emit;
  cbn.

(** ** The flush, step by step *)

Lemma getattr_send_raises (m : machine) :
  getattr_self "send_telegram_message" m = (inl unbound_send, m).
Proof. reflexivity. Qed.

(** The loop of lines 233-243 runs through the pairs whose label is
    skipped and stops, raising, at the first label that passes the guard. *)
Lemma for_each_notify_entry (o : flush_obs) (pairs : list (PendingEntry * Py.json)) (m : machine) :
  for_each pairs (notify_entry o) m =
  if forallb (λ p, negb (notifiable p.2)) pairs then (inr tt, m)
  else (inl unbound_send, m).
Proof.
  induction pairs as [|[entry category] rest IH]; [reflexivity|].
  cbn [for_each forallb snd]. rewrite bind_unfold. unfold notify_entry at 1.
  destruct (notifiable category); cbn [negb andb].
  - by rewrite getattr_send_raises.
  - apply IH.
Qed.

Lemma process_pending_entries_nonempty (o : flush_obs) (m : machine) :
  pending_entries (self m) ≠ [] →
  ∃ evs, flush_outcome o (pending_entries (self m)) evs ∧
         _process_pending_entries o m =
         (inr tt, {| self := flushed o (self m); trace := trace m ++ evs |}).
Proof.
  intros Hne. unfold _process_pending_entries. rewrite bind_unfold.
  cbn [get_self]. destruct (pending_entries (self m)) as [|e b] eqn:Hb; [done|].
  remember (e :: b) as batch eqn:Hbatch.
  destruct (openai_ok o) eqn:Hok.
  2:{ eexists; split; [by apply flush_no_client|]. run_m. reflexivity. }
  destruct (reply o) as [d| |v] eqn:Hr.
  - eexists; split; [by eapply flush_request_failed|].
    run_m. by rewrite <- app_assoc.
  - eexists; split; [by eapply flush_not_json|].
    run_m. by rewrite <- app_assoc.
  - destruct (Py.iter v) as [labels|] eqn:Hi.
    2:{ eexists; split; [by eapply flush_not_iterable|].
        run_m. rewrite Hi. run_m. by rewrite <- app_assoc. }
    destruct (forallb (λ p, negb (notifiable p.2)) (Py.zip batch labels)) eqn:Hall.
    + eexists; split; [by eapply flush_all_skipped|].
      run_m. rewrite Hi. run_m. rewrite Hb.
      rewrite for_each_notify_entry, Hall. reflexivity.
    + eexists; split; [by eapply flush_send_unbound|].
      run_m. rewrite Hi. run_m. rewrite Hb.
      rewrite for_each_notify_entry, Hall. cbn. by rewrite <- app_assoc.
Qed.

Lemma process_pending_entries_empty (o : flush_obs) (m : machine) :
  pending_entries (self m) = [] → _process_pending_entries o m = (inr tt, m).
Proof.
  intros Hb. unfold _process_pending_entries. rewrite bind_unfold.
  cbn [get_self]. by rewrite Hb.
Qed.

(** ** What the change detector leaves alone *)

Lemma same_settings_refl st : same_settings st st.
Proof. by repeat split. Qed.

Lemma same_settings_trans st1 st2 st3 :
  same_settings st1 st2 → same_settings st2 st3 → same_settings st1 st3.
Proof. unfold same_settings. intros H12 H23. destruct_and!. repeat split; congruence. Qed.

Lemma quiet_nil : quiet [].
Proof. by split. Qed.

Lemma quiet_app evs1 evs2 : quiet evs1 → quiet evs2 → quiet (evs1 ++ evs2).
Proof.
  unfold quiet, bulk_calls, attempts. intros [H1 H1'] [H2 H2'].
  rewrite !omap_app. by rewrite H1, H1', H2, H2'.
Qed.

Create HintDb frame.

Lemma appends_only_ret {A} (x : A) : appends_only (mret x).
Proof.
  intros m. exists [], []. cbn. rewrite !app_nil_r.
  auto using quiet_nil, same_settings_refl.
Qed.

Lemma appends_only_raise {A} (e : Py.exn) : appends_only (@raise A e).
Proof.
  intros m. exists [], []. cbn. rewrite !app_nil_r.
  auto using quiet_nil, same_settings_refl.
Qed.

Lemma appends_only_get_self : appends_only get_self.
Proof.
  intros m. exists [], []. cbn. rewrite !app_nil_r.
  auto using quiet_nil, same_settings_refl.
Qed.

Lemma appends_only_bind {A B} (c : M A) (k : A → M B) :
  appends_only c → (∀ x, appends_only (k x)) → appends_only (c ≫= k).
Proof.
  intros Hc Hk m. rewrite bind_unfold.
  destruct (Hc m) as (evs1 & news1 & Ht1 & Hq1 & Hs1 & Hp1).
  destruct (c m) as [[e|x] m1]; cbn in *; [by eauto 8|].
  destruct (Hk x m1) as (evs2 & news2 & Ht2 & Hq2 & Hs2 & Hp2).
  exists (evs1 ++ evs2), (news1 ++ news2). rewrite Ht2, Ht1, Hp2, Hp1, !app_assoc.
  split_and!; eauto using quiet_app, same_settings_trans.
Qed.

Lemma appends_only_try_except {A} (c : M A) (h : Py.exn → M A) :
  appends_only c → (∀ e, appends_only (h e)) → appends_only (try_except c h).
Proof.
  intros Hc Hh m. unfold try_except.
  destruct (Hc m) as (evs1 & news1 & Ht1 & Hq1 & Hs1 & Hp1).
  destruct (c m) as [[e|x] m1]; cbn in *; [|by eauto 8].
  destruct (Hh e m1) as (evs2 & news2 & Ht2 & Hq2 & Hs2 & Hp2).
  exists (evs1 ++ evs2), (news1 ++ news2). rewrite Ht2, Ht1, Hp2, Hp1, !app_assoc.
  split_and!; eauto using quiet_app, same_settings_trans.
Qed.

Lemma appends_only_log lvl text : appends_only (emit (Log lvl text)).
Proof.
  intros m. exists [Log lvl text], []. cbn. rewrite app_nil_r.
  split_and!; auto using same_settings_refl. by destruct lvl.
Qed.

Lemma appends_only_http url : appends_only (emit (HttpGet url)).
Proof.
  intros m. exists [HttpGet url], []. cbn. rewrite app_nil_r.
  split_and!; auto using same_settings_refl. done.
Qed.

Lemma appends_only_parse url : appends_only (emit (FeedParse url)).
Proof.
  intros m. exists [FeedParse url], []. cbn. rewrite app_nil_r.
  split_and!; auto using same_settings_refl. done.
Qed.

Lemma appends_only_sleep n : appends_only (time_sleep n).
Proof.
  intros m. exists [Sleep n], []. cbn. rewrite app_nil_r.
  split_and!; auto using same_settings_refl. done.
Qed.

Lemma appends_only_set_last_entries (f : RSSMonitor → gmap string string) :
  appends_only (modify_self (λ st, set_last_entries (f st) st)).
Proof.
  intros m. exists [], []. cbn. rewrite !app_nil_r.
  split_and!; auto using quiet_nil. by repeat split.
Qed.

Lemma appends_only_append_pending (e : PendingEntry) : appends_only (append_pending e).
Proof.
  intros m. exists [], [e]. cbn. rewrite !app_nil_r.
  split_and!; auto using quiet_nil. by repeat split.
Qed.

#[local] Hint Resolve appends_only_ret appends_only_raise appends_only_get_self
  appends_only_log appends_only_http appends_only_parse appends_only_sleep
  appends_only_set_last_entries appends_only_append_pending : frame.

(** Breaks a statement into its parts and closes the leaves. *)
Ltac frame_step :=
  match goal with
  | |- appends_only (_ ≫= _) => apply appends_only_bind; [|intros ?]
  | |- appends_only (try_except _ _) => apply appends_only_try_except; [|intros ?]
  | |- appends_only (logger_error _) => apply appends_only_log
  | |- appends_only (logger_warning _) => apply appends_only_log
  | |- appends_only (if ?b then _ else _) => destruct b
  | |- appends_only (match ?x with _ => _ end) => destruct x
  | |- appends_only _ => solve [auto with frame]
  end.

Lemma appends_only_parse_telegram_channel messages feed_url :
  appends_only (_parse_telegram_channel messages feed_url).
Proof. unfold _parse_telegram_channel. repeat frame_step. Qed.

Lemma appends_only_check_latest_entry parsed feed_url :
  appends_only (check_latest_entry parsed feed_url).
Proof. unfold check_latest_entry, entry_getattr. repeat frame_step. Qed.

Lemma appends_only_check_rss feed_url o : appends_only (_check_rss feed_url o).
Proof.
  unfold _check_rss, raise_for_status, check_rss_except.
  repeat first
    [ apply appends_only_parse_telegram_channel
    | apply appends_only_check_latest_entry
    | frame_step ].
Qed.

Lemma appends_only_poll_feeds checks i urls : appends_only (poll_feeds checks i urls).
Proof.
  revert i. induction urls as [|url rest IH]; intros i; cbn [poll_feeds].
  - apply appends_only_ret.
  - repeat first [ apply appends_only_check_rss | apply IH | frame_step ].
Qed.

(** ** Returning *)

Lemma total_try_except {A} (c : M A) (h : Py.exn → M A) :
  (∀ e, total (h e)) → total (try_except c h).
Proof.
  intros Hh m. unfold try_except.
  destruct (c m) as [[e|x] m1]; [apply Hh|by exists x].
Qed.

Lemma total_bind {A B} (c : M A) (k : A → M B) :
  total c → (∀ x, total (k x)) → total (c ≫= k).
Proof.
  intros Hc Hk m. rewrite bind_unfold.
  destruct (Hc m) as [x Hx]. destruct (c m) as [[e|y] m1]; cbn in Hx; [done|].
  apply Hk.
Qed.

Lemma total_emit e : total (emit e).
Proof. intros m. by exists tt. Qed.

Lemma total_ret {A} (x : A) : total (mret x).
Proof. intros m. by exists x. Qed.

Lemma total_check_rss feed_url o : total (_check_rss feed_url o).
Proof.
  apply total_try_except. intros e. unfold check_rss_except.
  destruct (Py.is_RequestException e); apply total_emit.
Qed.

Lemma total_process_pending_entries o : total (_process_pending_entries o).
Proof.
  intros m. destruct (decide (pending_entries (self m) = [])) as [Hb|Hb].
  - rewrite process_pending_entries_empty by done. by exists tt.
  - destruct (process_pending_entries_nonempty o m Hb) as (evs & _ & ->). by exists tt.
Qed.

Lemma total_unit_eq (c : M unit) (m : machine) : total c → c m = (inr tt, (c m).2).
Proof. intros Hc. destruct (Hc m) as [[] Hx]. by destruct (c m) as [[e|[]] m1]. Qed.

(** ** The flush: claims C1 and C6 *)

Lemma events_flush_nonempty (o : flush_obs) (st : RSSMonitor) :
  pending_entries st ≠ [] →
  flush_outcome o (pending_entries st) (events (_process_pending_entries o) st) ∧
  final (_process_pending_entries o) st = flushed o st ∧
  returns (_process_pending_entries o) st.
Proof.
  intros Hne. unfold events, final, returns, run.
  destruct (process_pending_entries_nonempty o {| self := st; trace := [] |} Hne)
    as (evs & Hout & ->).
  cbn. eauto.
Qed.

(** A flush makes no delivery attempt, whatever the reply. *)
Lemma flush_outcome_no_attempt o batch evs :
  flush_outcome o batch evs → attempts evs = [].
Proof. by destruct 1. Qed.

Lemma flush_outcome_bulk_calls o batch evs :
  flush_outcome o batch evs →
  bulk_calls evs = if openai_ok o then [entries_text 1 batch] else [].
Proof. destruct 1 as [->|? -> ?| -> ?|? -> ? ?|? ? -> ? ? ?|? ? -> ? ? ?]; done. Qed.

(** C6: every flush of the pending batch returns with the batch empty and
    the last-flush time set to the clock reading of line 250, whatever the
    classifier answers and whether or not the [try] block raises. *)
Theorem flush_clears_batch_and_resets_timer (o : flush_obs) (st : RSSMonitor) :
  pending_entries st ≠ [] →
  returns (_process_pending_entries o) st ∧
  pending_entries (final (_process_pending_entries o) st) = [] ∧
  last_batch_time (final (_process_pending_entries o) st) = flush_time o.
Proof.
  intros Hne. destruct (events_flush_nonempty o st Hne) as (_ & -> & Hret).
  by split_and!.
Qed.

(** C1, as amended: when the reply is unusable the batch is
    classification-failed, nothing is sent and the batch is cleared; a
    reply that is a list of labels is never failed for its length: its
    labels are paired with the entries up to the shorter length, and when
    no paired label passes the guard of line 234 the flush ends without an
    error, nothing sent and the batch cleared. *)
Theorem unusable_reply_fails_batch_length_is_not_checked (o : flush_obs) (st : RSSMonitor) :
  pending_entries st ≠ [] →
  (unusable_reply o →
     classification_failed o st ∧
     attempts (events (_process_pending_entries o) st) = [] ∧
     pending_entries (final (_process_pending_entries o) st) = [])
  ∧ (∀ labels,
       openai_ok o = true → reply o = Json (Py.JArr labels) →
       Forall (λ p, notifiable p.2 = false) (Py.zip (pending_entries st) labels) →
       ¬ classification_failed o st ∧
       attempts (events (_process_pending_entries o) st) = [] ∧
       pending_entries (final (_process_pending_entries o) st) = []).
Proof.
  intros Hne. destruct (events_flush_nonempty o st Hne) as (Hout & Hfin & _).
  unfold classification_failed. rewrite Hfin.
  generalize dependent (events (_process_pending_entries o) st). intros evs Hout.
  split.
  - intros Hbad. split_and!; [|by eapply flush_outcome_no_attempt|done].
    destruct Hout as [Hok|d Hok Hr|Hok Hr|v Hok Hr Hi|v ls Hok Hr Hi Hall|v ls Hok Hr Hi Hall];
      try (by eexists; repeat econstructor).
    destruct Hbad as [?|[[d' ?]|[?|(v' & ? & ?)]]]; congruence.
  - intros labels Hok Hr Hall. split_and!; [|by eapply flush_outcome_no_attempt|done].
    intros [e He].
    destruct Hout as [Hok'|d Hok' Hr'|Hok' Hr'|v Hok' Hr' Hi|v ls Hok' Hr' Hi Hall'|v ls Hok' Hr' Hi Hall'];
      try congruence; rewrite Hr in Hr'; simplify_eq; cbn in Hi; simplify_eq.
    + apply list_elem_of_In in He. by destruct He as [He|[]].
    + apply not_true_iff_false in Hall'. apply Hall'.
      apply forallb_forall. intros p Hp.
      apply negb_true_iff. eapply Forall_forall in Hall; [done|].
      by apply list_elem_of_In.
Qed.

(** ** The batch check of the loop: claims C5 and C9 *)

Lemma total_poll_feeds checks i urls : total (poll_feeds checks i urls).
Proof.
  revert i. induction urls as [|url rest IH]; intros i; cbn [poll_feeds].
  - apply total_ret.
  - apply total_bind; [apply total_check_rss|intros _].
    apply total_bind; [apply total_emit|intros _]. apply IH.
Qed.

Lemma entries_text_length start batch :
  length (entries_text start batch) = length batch.
Proof. revert start. induction batch as [|e b IH]; intros start; cbn; [done|]. by rewrite IH. Qed.

Lemma entries_text_titles start batch :
  item_title <$> entries_text start batch = title <$> batch.
Proof. revert start. induction batch as [|e b IH]; intros start; cbn; [done|]. by rewrite IH. Qed.

Lemma due_for_flush_true (st : RSSMonitor) (now : Z) :
  due_for_flush st now = true ↔
  max_batch_size st ≤ Z.of_nat (length (pending_entries st)) ∨
  (pending_entries st ≠ [] ∧ batch_timeout st ≤ now - last_batch_time st).
Proof.
  unfold due_for_flush. rewrite orb_true_iff, andb_true_iff, !Z.geb_le.
  destruct (pending_entries st) as [|e b]; cbn [length]; split.
  - intros [H|[? ?]]; [by left|done].
  - intros [H|[? ?]]; [by left|done].
  - intros [H|[_ H]]; [by left|right; by split].
  - intros [H|[_ H]]; [by left|by right].
Qed.

(** C5: the batch is due for flush exactly when its length has reached
    [max_batch_size], or it is non-empty and at least [batch_timeout] has
    elapsed since the last flush; the loop flushes when the batch is due
    and leaves everything as it is otherwise. *)
Theorem due_for_flush_iff_size_or_timeout (o : iteration_obs) (m : machine) :
  (due_for_flush (self m) (current_time o) = true ↔
     max_batch_size (self m) ≤ Z.of_nat (length (pending_entries (self m))) ∨
     (pending_entries (self m) ≠ [] ∧
      batch_timeout (self m) ≤ current_time o - last_batch_time (self m)))
  ∧ batch_check o m =
    (if due_for_flush (self m) (current_time o)
     then _process_pending_entries (flush o) m
     else (inr tt, m)).
Proof.
  split; [apply due_for_flush_true|].
  unfold batch_check. rewrite bind_unfold. cbn [get_self].
  by destruct (due_for_flush (self m) (current_time o)).
Qed.

(** C9: the sweep of lines 125-127 only appends to the batch and makes no
    classification call, the condition of line 129 being read after the
    last feed; when the sweep has added more than [max_batch_size] entries
    the batch is longer than [max_batch_size] at that point, it is due,
    and the flush makes one bulk call that lists every entry of the batch
    and leaves the batch empty. *)
Theorem oversized_batch_flushed_in_one_call
    (o : iteration_obs) (urls : list string) (st : RSSMonitor) :
  let swept := final (poll_feeds (checks o) 0 urls) st in
  let sweep_and_check := poll_feeds (checks o) 0 urls;; batch_check o in
  max_batch_size st
    < Z.of_nat (length (pending_entries swept)) - Z.of_nat (length (pending_entries st)) →
  0 ≤ max_batch_size st →
  openai_ok (flush o) = true →
  (∃ news, pending_entries swept = pending_entries st ++ news ∧
           max_batch_size st < Z.of_nat (length news)) ∧
  bulk_calls (events (poll_feeds (checks o) 0 urls) st) = [] ∧
  max_batch_size swept < Z.of_nat (length (pending_entries swept)) ∧
  due_for_flush swept (current_time o) = true ∧
  bulk_calls (events sweep_and_check st) = [entries_text 1 (pending_entries swept)] ∧
  item_title <$> entries_text 1 (pending_entries swept) = title <$> pending_entries swept ∧
  pending_entries (final sweep_and_check st) = [].
Proof.
  intros swept sweep_and_check Hmore Hmax Hok.
  subst swept sweep_and_check. unfold final, events, run in *.
  set (m0 := {| self := st; trace := [] |}) in *.
  destruct (appends_only_poll_feeds (checks o) 0 urls m0)
    as (evs & news & Ht & [Hq _] & Hs & Hnews).
  rewrite bind_unfold. rewrite (total_unit_eq _ m0 (total_poll_feeds _ _ _)).
  set (m1 := (poll_feeds (checks o) 0 urls m0).2) in *.
  cbn [snd]. cbn in Ht, Hnews.
  assert (Hmax1 : max_batch_size (self m1) = max_batch_size st) by apply Hs.
  assert (Hlen : max_batch_size st < Z.of_nat (length news)).
  { rewrite Hnews, length_app in Hmore. lia. }
  assert (Hlong : max_batch_size (self m1) < Z.of_nat (length (pending_entries (self m1)))).
  { rewrite Hmax1, Hnews, length_app. lia. }
  assert (Hdue : due_for_flush (self m1) (current_time o) = true).
  { apply due_for_flush_true. left. lia. }
  assert (Hne : pending_entries (self m1) ≠ []).
  { intros Hnil. rewrite Hnil in Hlong. cbn in Hlong. lia. }
  split_and!.
  - by exists news.
  - by rewrite Ht.
  - done.
  - done.
  - unfold batch_check. rewrite bind_unfold. cbn [get_self]. rewrite Hdue.
    destruct (process_pending_entries_nonempty (flush o) m1 Hne) as (evs2 & Hout & ->).
    cbn [snd trace]. unfold bulk_calls. rewrite omap_app. fold (bulk_calls (trace m1)).
    fold (bulk_calls evs2). rewrite Ht, Hq.
    by rewrite (flush_outcome_bulk_calls _ _ _ Hout), Hok.
  - apply entries_text_titles.
  - unfold batch_check. rewrite bind_unfold. cbn [get_self]. rewrite Hdue.
    by destruct (process_pending_entries_nonempty (flush o) m1 Hne) as (evs2 & Hout & ->).
Qed.

(** ** The change detector: claims C7 and C10, and the regular path *)

Lemma check_rss_fetch_fails (feed_url : string) (o : feed_obs) (m : machine) :
  fetch_fails o →
  ∃ text, _check_rss feed_url o m =
          (inr tt, {| self := self m;
                      trace := trace m ++ [HttpGet feed_url; Log ERROR text] |}).
Proof.
  unfold fetch_fails, _check_rss, check_rss_except. intros Hfail.
  destruct (response o) as [d|status_code text] eqn:Hresp.
  - eexists. run_m. rewrite ?Hresp. cbn. by rewrite <- app_assoc.
  - eexists. run_m. rewrite ?Hresp. cbn. unfold raise_for_status.
    replace (400 <=? status_code) with true by (symmetry; apply Z.leb_le; lia).
    replace (status_code <? 600) with true by (symmetry; apply Z.ltb_lt; lia).
    cbn. by rewrite <- app_assoc.
Qed.

Lemma check_rss_fetch_succeeds (feed_url : string) (o : feed_obs) (m : machine) :
  fetch_succeeds o → bozo (feed o) = false →
  _check_rss feed_url o m =
  try_except (check_latest_entry (feed o) feed_url) (check_rss_except feed_url)
    {| self := self m; trace := trace m ++ [HttpGet feed_url; FeedParse feed_url] |}.
Proof.
  unfold fetch_succeeds, _check_rss. intros Hok Hbozo.
  destruct (response o) as [d|status_code text] eqn:Hresp; [done|].
  run_m. rewrite ?Hresp. cbn. unfold raise_for_status.
  replace ((400 <=? status_code) && (status_code <? 600)) with false.
  2:{ symmetry. apply andb_false_iff. rewrite Z.leb_gt, Z.ltb_ge. lia. }
  run_m. by rewrite Hbozo, <- app_assoc.
Qed.

(** C10: when the fetch succeeds and the parse reports no malformation and
    no entry, the check returns without raising, changes nothing in the
    monitor (the last-seen index and the pending batch included) and logs
    no error. *)
Theorem empty_feed_changes_nothing (feed_url : string) (o : feed_obs) (st : RSSMonitor) :
  fetch_succeeds o → bozo (feed o) = false → entries (feed o) = [] →
  returns (_check_rss feed_url o) st ∧
  final (_check_rss feed_url o) st = st ∧
  events (_check_rss feed_url o) st = [HttpGet feed_url; FeedParse feed_url].
Proof.
  intros Hok Hbozo Hnone. unfold returns, final, events, run.
  rewrite check_rss_fetch_succeeds by done.
  unfold try_except, check_latest_entry. rewrite Hnone. cbn. eauto.
Qed.

(** C7, as amended: when [requests.get] raises, or answers with a status
    from 400 to 599, the check returns without raising, leaves the monitor
    unchanged (no candidate, same last-seen index, same pending batch), and
    the sweep goes on to the remaining feeds from that same state. *)
Theorem failed_fetch_changes_nothing (feed_url : string) (o : feed_obs) (st : RSSMonitor) :
  fetch_fails o →
  returns (_check_rss feed_url o) st ∧
  final (_check_rss feed_url o) st = st ∧
  (∃ text, events (_check_rss feed_url o) st = [HttpGet feed_url; Log ERROR text]) ∧
  (∀ checks i rest m,
     checks i = o →
     ∃ text,
       poll_feeds checks i (feed_url :: rest) m =
       poll_feeds checks (S i) rest
         {| self := self m;
            trace := trace m ++ [HttpGet feed_url; Log ERROR text;
                                 Sleep RSS_REQUEST_DELAY] |}).
Proof.
  intros Hfail. unfold returns, final, events, run.
  destruct (check_rss_fetch_fails feed_url o {| self := st; trace := [] |} Hfail)
    as [text ->].
  split_and!; cbn; eauto.
  intros checks i rest m <-.
  destruct (check_rss_fetch_fails feed_url (checks i) m Hfail) as [text' Hrun].
  exists text'. cbn [poll_feeds]. rewrite bind_unfold, Hrun, bind_unfold.
  unfold time_sleep, emit. cbn. by rewrite <- app_assoc.
Qed.

(** A feed whose latest entry has a title and a link: a candidate is
    emitted exactly when the identity of the entry is not the one stored
    for the feed, and the index is then set to it. *)
Lemma check_rss_emits_iff_new (feed_url : string) (o : feed_obs) (st : RSSMonitor)
    (entry : gmap string string) (rest : list (gmap string string))
    (entry_title entry_link ident : string) :
  fetch_succeeds o → bozo (feed o) = false → entries (feed o) = entry :: rest →
  entry !! "title" = Some entry_title → entry !! "link" = Some entry_link →
  identity entry = Some ident →
  returns (_check_rss feed_url o) st ∧
  (last_entries st !! feed_url ≠ Some ident →
     last_entries (final (_check_rss feed_url o) st) = <[feed_url := ident]> (last_entries st) ∧
     pending_entries (final (_check_rss feed_url o) st) =
       pending_entries st ++ [candidate entry feed_url entry_title entry_link]) ∧
  (last_entries st !! feed_url = Some ident →
     final (_check_rss feed_url o) st = st).
Proof.
  intros Hok Hbozo Hentries Htitle Hlink Hid. unfold returns, final, events, run.
  rewrite check_rss_fetch_succeeds by done.
  unfold try_except, check_latest_entry. rewrite Hentries.
  rewrite bool_decide_eq_false_2.
  2:{ intros ->. by rewrite lookup_empty in Htitle. }
  assert (Hident : (if bool_decide (is_Some (entry !! "id"))
                    then entry_getattr entry "id" else entry_getattr entry "link")
                   = mret ident).
  { unfold identity, entry_getattr in *.
    destruct (entry !! "id") as [i|] eqn:Hi.
    - rewrite bool_decide_eq_true_2 by eauto. by simplify_eq.
    - rewrite bool_decide_eq_false_2 by (by intros [? ?]). by rewrite Hid. }
  rewrite Hident. run_m. unfold is_new, entry_getattr. cbn.
  destruct (last_entries st !! feed_url) as [seen|] eqn:Hseen.
  - destruct (String.eqb_spec seen ident) as [->|Hne]; cbn.
    + split_and!; [eauto| done |]. intros _. by destruct st.
    + rewrite Htitle, Hlink. cbn. split_and!; [eauto| |congruence].
      intros _. done.
  - rewrite Htitle, Hlink. cbn. split_and!; [eauto| |done].
    intros _. done.
Qed.

(** ** The notifier *)

Lemma omap_snoc {A B} (f : A → option B) (l : list A) (x : A) :
  omap f (l ++ [x]) = omap f l ++ match f x with Some y => [y] | None => [] end.
Proof. rewrite omap_app. cbn. by destruct (f x). Qed.

(** [send_each] tries every chat id in turn, whatever the outcome of the
    earlier ones, and never raises. *)
Lemma send_each_tries_all (o : chat_obs) (message : Message) (chat_ids : list Z) :
  ∀ (i : nat) (m : machine),
    ∃ m', send_each o message i chat_ids m = (inr tt, m') ∧
          self m' = self m ∧
          attempts (trace m') = attempts (trace m) ++ chat_ids ∧
          deliveries (trace m') =
            deliveries (trace m) ++ ((λ c, (c, message)) <$> delivered_to o i chat_ids).
Proof.
  induction chat_ids as [|chat_id rest IH]; intros i m; cbn [send_each delivered_to].
  - exists m. cbn. by rewrite !app_nil_r.
  - rewrite bind_unfold. unfold try_except.
    destruct (bot_send o i chat_id) eqn:Hsend.
    + unfold emit at 1. cbn.
      destruct (IH (S i) {| self := self m;
                            trace := trace m ++ [SendMessage chat_id message true] |})
        as (m' & -> & Hself & Hatt & Hdel).
      exists m'. split_and!; [done|done| |].
      * rewrite Hatt. cbn [trace]. unfold attempts. rewrite omap_snoc.
        by rewrite <- app_assoc.
      * rewrite Hdel. cbn [trace]. unfold deliveries. rewrite omap_snoc.
        by rewrite <- app_assoc.
    + rewrite bind_unfold. unfold emit at 1, raise, logger_error, emit. cbn.
      match goal with |- context [send_each _ _ _ _ ?m1] =>
        destruct (IH (S i) m1) as (m' & -> & Hself & Hatt & Hdel) end.
      exists m'. split_and!; [done|done| |].
      * rewrite Hatt. cbn [trace]. unfold attempts. rewrite !omap_snoc.
        cbn. by rewrite app_nil_r, <- app_assoc.
      * rewrite Hdel. cbn [trace]. unfold deliveries. rewrite !omap_snoc.
        cbn. by rewrite !app_nil_r.
Qed.

(** The module-level notifier tries every registered chat id and delivers
    to each one whose [send_message] returns: a failure neither stops the
    later attempts nor undoes the earlier deliveries. *)
Lemma send_telegram_message_tries_all (o : chat_obs) (message : Message)
    (chat_ids : list Z) (st : RSSMonitor) :
  chat_file o = Some (Some <$> chat_ids) →
  returns (send_telegram_message o message) st ∧
  final (send_telegram_message o message) st = st ∧
  attempts (events (send_telegram_message o message) st) = chat_ids ∧
  deliveries (events (send_telegram_message o message) st) =
    (λ c, (c, message)) <$> delivered_to o 0 chat_ids.
Proof.
  intros Hfile. unfold returns, final, events, run, send_telegram_message.
  rewrite bind_unfold.
  assert (Hload : ∀ m, load_chat_ids o m = (inr chat_ids, m)).
  { unfold load_chat_ids. rewrite Hfile. clear Hfile.
    induction chat_ids as [|c cs IH]; intros m; cbn; [done|].
    rewrite bind_unfold. by rewrite IH. }
  rewrite Hload.
  destruct (send_each_tries_all o message chat_ids 0 {| self := st; trace := [] |})
    as (m' & -> & Hself & Hatt & Hdel).
  cbn in *. eauto.
Qed.

(** ** The single-entry classifier *)

(** [categorize_with_chatgpt] returns a label of the vocabulary or
    nothing: an answer outside [CATEGORIES], the answer ['None'] and a
    failed request all give [None]. *)
Lemma categorize_with_chatgpt_normalizes (t c : string) (answer : option string) (st : RSSMonitor) :
  ∃ r, (run (categorize_with_chatgpt t c answer) st).1 = inr r ∧
       final (categorize_with_chatgpt t c answer) st = st ∧
       match r with
       | Some category => answer = Some category ∧ category ∈ CATEGORIES ∧ category ≠ "None"
       | None => answer = None ∨ answer = Some "None"
                 ∨ ∃ category, answer = Some category ∧ category ∉ CATEGORIES
       end.
Proof.
  unfold final, run, categorize_with_chatgpt. run_m.
  destruct answer as [category|]; cbn; [|eauto 6].
  destruct (String.eqb_spec category "None") as [->|Hne]; cbn; [eauto 6|].
  destruct (decide (category ∈ CATEGORIES)) as [Hin|Hout].
  - rewrite bool_decide_eq_true_2 by done. cbn. eauto 6.
  - rewrite bool_decide_eq_false_2 by done. cbn.
    eexists; split_and!; [done|done|]. right; right. eauto.
Qed.

(** The guard of the batch path lets through every non-empty string other
    than ['None'], in the vocabulary or not. *)
Lemma notifiable_string (s : string) :
  notifiable (Py.JStr s) = true ↔ s ≠ "" ∧ s ≠ "None".
Proof.
  unfold notifiable. cbn. rewrite andb_true_iff, !negb_true_iff.
  destruct (String.eqb_spec s ""), (String.eqb_spec s "None");
    intuition (discriminate || congruence).
Qed.

(** ** The loop *)

Lemma total_get_rss_feeds s : total (get_rss_feeds s).
Proof.
  apply total_try_except. intros e.
  apply total_bind; [apply total_emit|intros _; apply total_ret].
Qed.

Lemma total_modify_self f : total (modify_self f).
Proof. intros m. by exists tt. Qed.

Lemma total_get_self : total get_self.
Proof. intros m. by eexists. Qed.

(** One turn of the loop always reaches its final sleep. *)
Lemma total_monitor_iteration o : total (monitor_iteration o).
Proof.
  unfold monitor_iteration.
  apply total_bind; [|intros _; apply total_bind; [apply total_get_self|intros; apply total_emit]].
  apply total_try_except. intros e. apply total_emit.
Qed.

(** ** The feed list: claim C3 *)

(** C3, as amended: when the refresh is due and the Sheets request fails,
    [get_rss_feeds] logs the error and returns the empty list without
    raising, and the poller's feed list becomes that empty list: the list
    it held before is not kept. *)
Theorem failed_refresh_empties_feed_list (o : iteration_obs) (st : RSSMonitor) :
  sheet_refresh_interval st ≤ current_time o - last_sheet_check st →
  sheet o = None →
  returns (refresh_feeds o) st ∧
  feeds (final (refresh_feeds o) st) = [] ∧
  last_sheet_check (final (refresh_feeds o) st) = current_time o ∧
  errors (events (refresh_feeds o) st) =
    ["Error fetching RSS feeds: sheets request failed"].
Proof.
  intros Hdue Hsheet. unfold returns, final, events, run, refresh_feeds.
  rewrite bind_unfold. cbn [get_self self].
  replace (current_time o - last_sheet_check st >=? sheet_refresh_interval st) with true
    by (symmetry; apply Z.geb_le; lia).
  unfold get_rss_feeds. rewrite Hsheet. run_m. eauto.
Qed.

(** ** The claims on concrete inputs *)

Lemma flush_makes_no_attempt (o : flush_obs) (st : RSSMonitor) :
  attempts (events (_process_pending_entries o) st) = [].
Proof.
  destruct (decide (pending_entries st = [])) as [Hb|Hb].
  - unfold events, run. by rewrite process_pending_entries_empty.
  - destruct (events_flush_nonempty o st Hb) as (Hout & _).
    by eapply flush_outcome_no_attempt.
Qed.

(** C6 on a batch of two entries and a reply that is not JSON. *)
Lemma flush_clears_batch_and_resets_timer_witness :
  returns (_process_pending_entries (Example.answer NotJson)) Example.two_pending ∧
  pending_entries
    (final (_process_pending_entries (Example.answer NotJson)) Example.two_pending) = [] ∧
  last_batch_time
    (final (_process_pending_entries (Example.answer NotJson)) Example.two_pending) = 120.
Proof.
  apply (flush_clears_batch_and_resets_timer (Example.answer NotJson) Example.two_pending).
  discriminate.
Defined.

(** C1 as stated fails on a label count that differs from the batch size:
    two entries are pending and the reply is the one-label list
    [["None"]]; the handler of line 245 does not run and the flush ends as
    a successful one does. *)
Lemma label_count_mismatch_is_not_a_failure :
  reply (Example.answer (Example.labels ["None"])) = Json (Py.JArr [Py.JStr "None"]) ∧
  length [Py.JStr "None"] ≠ length (pending_entries Example.two_pending) ∧
  ¬ classification_failed (Example.answer (Example.labels ["None"])) Example.two_pending.
Proof.
  split_and!; [reflexivity|discriminate|].
  intros [e He].
  assert (Hev : events (_process_pending_entries (Example.answer (Example.labels ["None"])))
                  Example.two_pending
                = [ChatCompletion "gpt-3.5-turbo"
                     (entries_text 1 (pending_entries Example.two_pending))])
    by reflexivity.
  rewrite Hev in He. apply list_elem_of_In in He. by destruct He as [He|[]].
Qed.

(** The amended C1 on a batch of two entries: a reply that is not JSON
    fails the batch, the one-label reply [["None"]] does not. *)
Lemma unusable_reply_fails_batch_length_is_not_checked_witness :
  (classification_failed (Example.answer NotJson) Example.two_pending ∧
   attempts (events (_process_pending_entries (Example.answer NotJson))
               Example.two_pending) = [] ∧
   pending_entries (final (_process_pending_entries (Example.answer NotJson))
                      Example.two_pending) = [])
  ∧ (¬ classification_failed (Example.answer (Example.labels ["None"])) Example.two_pending ∧
     attempts (events (_process_pending_entries (Example.answer (Example.labels ["None"])))
                 Example.two_pending) = [] ∧
     pending_entries (final (_process_pending_entries (Example.answer (Example.labels ["None"])))
                        Example.two_pending) = []).
Proof.
  split.
  - apply (unusable_reply_fails_batch_length_is_not_checked
             (Example.answer NotJson) Example.two_pending); [discriminate|].
    right; right; left. reflexivity.
  - apply (unusable_reply_fails_batch_length_is_not_checked
             (Example.answer (Example.labels ["None"])) Example.two_pending)
      with (labels := [Py.JStr "None"]);
      [discriminate|reflexivity|reflexivity|].
    repeat constructor.
Defined.

(** C2 on the code: the batch path does not normalize a label outside the
    vocabulary.  ["Sports"] passes the guard of line 234 and reaches the
    call of line 242, where ['None'] is skipped; the single-entry path
    turns the same answer into [None]. *)
Theorem batch_label_outside_vocabulary_is_not_normalized :
  ("Sports" ∉ CATEGORIES) ∧
  notifiable (Py.JStr "Sports") = true ∧
  events (_process_pending_entries (Example.answer (Example.labels ["Sports"])))
    Example.one_pending
  = [ChatCompletion "gpt-3.5-turbo" (entries_text 1 [Example.pending_123]);
     batch_error unbound_send] ∧
  events (_process_pending_entries (Example.answer (Example.labels ["None"])))
    Example.one_pending
  = [ChatCompletion "gpt-3.5-turbo" (entries_text 1 [Example.pending_123])] ∧
  (run (categorize_with_chatgpt "Licence granted" "A licence was granted." (Some "Sports"))
     Example.monitor).1 = inr None.
Proof.
  split_and!; try reflexivity.
  intros Hin. apply list_elem_of_In in Hin. cbn in Hin.
  repeat (destruct Hin as [Hin|Hin]; [discriminate Hin|]). done.
Qed.

(** C8 on the code: three chat ids are registered and the module-level
    notifier would try all three, delivering to the two whose
    [send_message] returns; the flush of a batch whose entry is labelled
    ["License"] tries none of them, because line 242 calls the notifier
    through [self], where the name is not bound. *)
Theorem batch_notification_reaches_no_destination :
  attempts (events (send_telegram_message Example.chats Example.message)
              Example.one_pending) = [11; 22; 33] ∧
  deliveries (events (send_telegram_message Example.chats Example.message)
                Example.one_pending)
  = [(11, Example.message); (33, Example.message)] ∧
  notifiable (Py.JStr "License") = true ∧
  attempts (events (_process_pending_entries (Example.answer (Example.labels ["License"])))
              Example.one_pending) = [] ∧
  errors (events (_process_pending_entries (Example.answer (Example.labels ["License"])))
            Example.one_pending)
  = ["Error in batch processing: 'RSSMonitor' object has no attribute 'send_telegram_message'"].
Proof. by split_and!. Qed.

(** C3 as stated fails: the poller holds one feed, the refresh is due and
    the Sheets request fails; the feed list is empty afterwards, also at
    the end of the turn. *)
Lemma failed_refresh_drops_cached_list :
  feeds Example.with_feeds = [Example.url] ∧
  sheet (Example.turn 600 None) = None ∧
  feeds (final (refresh_feeds (Example.turn 600 None)) Example.with_feeds) = [] ∧
  feeds (final (monitor_iteration (Example.turn 600 None)) Example.with_feeds) = [].
Proof. by split_and!. Qed.

(** The amended C3 on that input. *)
Lemma failed_refresh_empties_feed_list_witness :
  returns (refresh_feeds (Example.turn 600 None)) Example.with_feeds ∧
  feeds (final (refresh_feeds (Example.turn 600 None)) Example.with_feeds) = [] ∧
  last_sheet_check (final (refresh_feeds (Example.turn 600 None)) Example.with_feeds) = 600 ∧
  errors (events (refresh_feeds (Example.turn 600 None)) Example.with_feeds) =
    ["Error fetching RSS feeds: sheets request failed"].
Proof.
  apply (failed_refresh_empties_feed_list (Example.turn 600 None) Example.with_feeds).
  - vm_compute. discriminate.
  - reflexivity.
Defined.

(** C4 on the code: the latest entry has an id and a link but no title.
    Its identity is new to the index; the check stores it (line 184) and
    then fails on [latest_entry.title] (line 189), so no candidate is
    appended, and the next check finds the identity already stored. *)
Theorem untitled_entry_advances_index_without_candidate :
  identity Example.entry_untitled = Some "9" ∧
  last_entries Example.monitor !! Example.url = None ∧
  returns (_check_rss Example.url (Example.fetched 200 [Example.entry_untitled]))
    Example.monitor ∧
  last_entries
    (final (_check_rss Example.url (Example.fetched 200 [Example.entry_untitled]))
       Example.monitor) !! Example.url = Some "9" ∧
  pending_entries
    (final (_check_rss Example.url (Example.fetched 200 [Example.entry_untitled]))
       Example.monitor) = [] ∧
  errors (events (_check_rss Example.url (Example.fetched 200 [Example.entry_untitled]))
            Example.monitor)
  = ["Error checking feed http://feed.example/rss: 'FeedParserDict' object has no attribute 'title'"] ∧
  pending_entries
    (final (_check_rss Example.url (Example.fetched 200 [Example.entry_untitled]);;
            _check_rss Example.url (Example.fetched 200 [Example.entry_untitled]))
       Example.monitor) = [].
Proof. split_and!; try (by vm_compute). by exists tt. Qed.

(** C7 as stated fails on a status outside 2xx that [raise_for_status]
    accepts: the answer is 304, the parsed feed has a new entry, and the
    check emits the candidate and advances the index. *)
Lemma status_304_is_polled_like_a_success :
  response (Example.fetched 304 [Example.entry_123]) = Response 304 "<rss/>" ∧
  ¬ (200 ≤ 304 < 300) ∧
  pending_entries
    (final (_check_rss Example.url (Example.fetched 304 [Example.entry_123]))
       Example.monitor) = [Example.pending_123] ∧
  last_entries
    (final (_check_rss Example.url (Example.fetched 304 [Example.entry_123]))
       Example.monitor) !! Example.url = Some "123".
Proof. split_and!; [reflexivity|lia|by vm_compute|by vm_compute]. Qed.

(** The amended C7 on a feed whose server refuses the connection. *)
Lemma failed_fetch_changes_nothing_witness :
  returns (_check_rss Example.url Example.unreachable) Example.monitor ∧
  final (_check_rss Example.url Example.unreachable) Example.monitor = Example.monitor ∧
  (∃ text, events (_check_rss Example.url Example.unreachable) Example.monitor
           = [HttpGet Example.url; Log ERROR text]) ∧
  (∀ checks i rest m,
     checks i = Example.unreachable →
     ∃ text,
       poll_feeds checks i (Example.url :: rest) m =
       poll_feeds checks (S i) rest
         {| self := self m;
            trace := trace m ++ [HttpGet Example.url; Log ERROR text;
                                 Sleep RSS_REQUEST_DELAY] |}).
Proof.
  apply (failed_fetch_changes_nothing Example.url Example.unreachable Example.monitor).
  exact I.
Defined.

(** C10 on a feed that answers 200 with no entry. *)
Lemma empty_feed_changes_nothing_witness :
  returns (_check_rss Example.url (Example.fetched 200 [])) Example.monitor ∧
  final (_check_rss Example.url (Example.fetched 200 [])) Example.monitor = Example.monitor ∧
  events (_check_rss Example.url (Example.fetched 200 [])) Example.monitor
  = [HttpGet Example.url; FeedParse Example.url].
Proof.
  apply (empty_feed_changes_nothing Example.url (Example.fetched 200 []) Example.monitor).
  - cbn. lia.
  - reflexivity.
  - reflexivity.
Defined.

(** C9 on a sweep of six feeds that all carry a new entry, with
    [max_batch_size] at 5: the batch holds six entries when the sweep ends
    and the flush lists all six in its one call. *)
Lemma oversized_batch_flushed_in_one_call_witness :
  (∃ news,
     pending_entries (final (poll_feeds (checks Example.sweep_turn) 0 Example.six_feeds)
                        Example.monitor)
     = pending_entries Example.monitor ++ news ∧
     max_batch_size Example.monitor < Z.of_nat (length news)) ∧
  bulk_calls (events (poll_feeds (checks Example.sweep_turn) 0 Example.six_feeds)
                Example.monitor) = [] ∧
  max_batch_size (final (poll_feeds (checks Example.sweep_turn) 0 Example.six_feeds)
                    Example.monitor)
  < Z.of_nat (length (pending_entries
                        (final (poll_feeds (checks Example.sweep_turn) 0 Example.six_feeds)
                           Example.monitor))) ∧
  due_for_flush (final (poll_feeds (checks Example.sweep_turn) 0 Example.six_feeds)
                   Example.monitor)
    (current_time Example.sweep_turn) = true ∧
  bulk_calls (events (poll_feeds (checks Example.sweep_turn) 0 Example.six_feeds;;
                      batch_check Example.sweep_turn) Example.monitor)
  = [entries_text 1
       (pending_entries (final (poll_feeds (checks Example.sweep_turn) 0 Example.six_feeds)
                           Example.monitor))] ∧
  item_title <$> entries_text 1
       (pending_entries (final (poll_feeds (checks Example.sweep_turn) 0 Example.six_feeds)
                           Example.monitor))
  = title <$> pending_entries
                (final (poll_feeds (checks Example.sweep_turn) 0 Example.six_feeds)
                   Example.monitor) ∧
  pending_entries (final (poll_feeds (checks Example.sweep_turn) 0 Example.six_feeds;;
                          batch_check Example.sweep_turn) Example.monitor) = [].
Proof.
  apply (oversized_batch_flushed_in_one_call Example.sweep_turn Example.six_feeds
           Example.monitor).
  - vm_compute. reflexivity.
  - vm_compute. discriminate.
  - reflexivity.
Defined.

(** * Further properties *)

(** ** The change detector as a whole *)

Lemma try_except_check_rss_self (c : M unit) (feed_url : string) (m : machine) :
  self (try_except c (check_rss_except feed_url) m).2 = self (c m).2.
Proof.
  unfold try_except, check_rss_except.
  destruct (c m) as [[e|[]] m1]; [|done].
  by destruct (Py.is_RequestException e).
Qed.

Lemma check_latest_entry_self (parsed : FeedParserDict) (feed_url : string) (m : machine) :
  self (check_latest_entry parsed feed_url m).2 =
  record_found feed_url (latest_found parsed feed_url) (self m).
Proof.
  unfold check_latest_entry, latest_found, identity, record_found.
  destruct (entries parsed) as [|entry rest]; [done|].
  destruct (decide (entry = ∅)) as [->|Hne].
  { rewrite bool_decide_eq_true_2 by done. by rewrite !lookup_empty. }
  rewrite bool_decide_eq_false_2 by done.
  unfold entry_getattr.
  destruct (entry !! "id") as [i|] eqn:Hi.
  - rewrite bool_decide_eq_true_2 by eauto. run_m.
    destruct (is_new (self m) feed_url i); [|done]. cbn.
    destruct (entry !! "title") as [t|]; cbn; [|done].
    destruct (entry !! "link") as [l|]; cbn; done.
  - rewrite bool_decide_eq_false_2 by (by intros [? ?]). run_m.
    destruct (entry !! "link") as [l|] eqn:Hl; cbn; [|done].
    destruct (is_new (self m) feed_url l); [|done]. cbn.
    by destruct (entry !! "title") as [t|].
Qed.

Lemma parse_telegram_channel_self (messages : list tg_message) (feed_url : string) (m : machine) :
  self (_parse_telegram_channel messages feed_url m).2 =
  record_found feed_url (telegram_found messages feed_url) (self m).
Proof.
  unfold _parse_telegram_channel, telegram_found, record_found.
  destruct messages as [|msg rest]; [done|].
  destruct (message_link msg) as [[href|]|], (message_text msg) as [text|]; run_m; try done.
  by destruct (is_new (self m) feed_url href).
Qed.

(** The effect of a check on the monitor: what it finds is recorded, and
    nothing else changes. *)
Lemma check_rss_self (feed_url : string) (o : feed_obs) (m : machine) :
  self (_check_rss feed_url o m).2 = record_found feed_url (found feed_url o) (self m).
Proof.
  unfold found.
  destruct (response o) as [d|status_code text] eqn:Hresp.
  { destruct (check_rss_fetch_fails feed_url o m) as [t ->]; [|done].
    unfold fetch_fails. by rewrite Hresp. }
  destruct ((400 <=? status_code) && (status_code <? 600)) eqn:Hstatus.
  { destruct (check_rss_fetch_fails feed_url o m) as [t ->]; [|done].
    unfold fetch_fails. rewrite Hresp. apply andb_true_iff in Hstatus. lia. }
  unfold _check_rss. rewrite try_except_check_rss_self.
  run_m. rewrite Hresp. cbn. unfold raise_for_status. rewrite Hstatus. run_m.
  destruct (bozo (feed o)) eqn:Hbozo; cbn.
  - destruct (Py.contains "t.me/s/" feed_url); cbn.
    + by rewrite parse_telegram_channel_self.
    + destruct (entries (feed o)) as [|e es] eqn:Hes.
      * cbn. unfold latest_found. by rewrite Hes.
      * by rewrite check_latest_entry_self.
  - by rewrite check_latest_entry_self.
Qed.

Lemma is_new_recorded (st : RSSMonitor) (feed_url ident : string) (ps : list PendingEntry) :
  is_new (set_pending_entries ps
            (set_last_entries (<[feed_url := ident]> (last_entries st)) st))
         feed_url ident = false.
Proof. unfold is_new. cbn. by rewrite lookup_insert_eq, String.eqb_refl. Qed.

Lemma is_new_true (st : RSSMonitor) (feed_url ident : string) :
  is_new st feed_url ident = true ↔ last_entries st !! feed_url ≠ Some ident.
Proof.
  unfold is_new. destruct (last_entries st !! feed_url) as [seen|]; [|done].
  rewrite negb_true_iff. destruct (String.eqb_spec seen ident); split; congruence.
Qed.

Lemma record_found_idempotent (feed_url : string)
    (f : option (string * option PendingEntry)) (st : RSSMonitor) :
  record_found feed_url f (record_found feed_url f st) = record_found feed_url f st.
Proof.
  destruct f as [[ident cand]|]; [|done]. cbn.
  destruct (is_new st feed_url ident) eqn:Hnew; [|by rewrite Hnew].
  destruct cand as [e|].
  - by rewrite is_new_recorded.
  - unfold is_new. cbn. by rewrite lookup_insert_eq, String.eqb_refl.
Qed.

Lemma final_check_rss (feed_url : string) (o : feed_obs) (st : RSSMonitor) :
  final (_check_rss feed_url o) st = record_found feed_url (found feed_url o) st.
Proof. unfold final, run. by rewrite check_rss_self. Qed.

Lemma returns_of_total {A} (c : M A) (st : RSSMonitor) : total c → returns c st.
Proof. intros Hc. apply Hc. Qed.

Lemma final_bind_unit (c : M unit) (k : M unit) (st : RSSMonitor) :
  total c → final (c;; k) st = self (k (run c st).2).2.
Proof.
  intros Hc. unfold final, run. rewrite bind_unfold.
  by rewrite (total_unit_eq c _ Hc).
Qed.

(** Whatever the fetch and the parse give, a check returns without
    raising, keeps every setting of the monitor, appends at most one
    entry to the pending batch and makes neither a classification call
    nor a delivery attempt. *)
Theorem check_rss_returns_with_at_most_one_candidate
    (feed_url : string) (o : feed_obs) (st : RSSMonitor) :
  returns (_check_rss feed_url o) st ∧
  same_settings st (final (_check_rss feed_url o) st) ∧
  (∃ news, pending_entries (final (_check_rss feed_url o) st) = pending_entries st ++ news ∧
           (length news ≤ 1)%nat) ∧
  bulk_calls (events (_check_rss feed_url o) st) = [] ∧
  attempts (events (_check_rss feed_url o) st) = [].
Proof.
  split; [apply returns_of_total, total_check_rss|].
  destruct (appends_only_check_rss feed_url o {| self := st; trace := [] |})
    as (evs & _ & Ht & [Hb Ha] & _ & _).
  unfold events, run. rewrite Ht. cbn [trace app].
  rewrite final_check_rss. split_and!; [| |done|done].
  - destruct (found feed_url o) as [[ident [e|]]|]; cbn;
      try destruct (is_new st feed_url ident); by repeat split.
  - destruct (found feed_url o) as [[ident [e|]]|]; cbn;
      try destruct (is_new st feed_url ident); cbn.
    all: first [ by exists []; rewrite app_nil_r; split; [|cbn; lia]
               | by eexists [_]; split; [|cbn; lia] ].
Qed.

(** A check of one feed leaves the stored identity of every other feed as
    it is, and never removes a stored identity. *)
Theorem check_rss_touches_only_its_feed
    (feed_url : string) (o : feed_obs) (st : RSSMonitor) :
  (∀ other, other ≠ feed_url →
     last_entries (final (_check_rss feed_url o) st) !! other = last_entries st !! other) ∧
  (∀ key, is_Some (last_entries st !! key) →
     is_Some (last_entries (final (_check_rss feed_url o) st) !! key)).
Proof.
  rewrite final_check_rss.
  destruct (found feed_url o) as [[ident cand]|]; cbn; [|done].
  destruct (is_new st feed_url ident); [|done].
  split.
  - intros other Hne. destruct cand; cbn; by rewrite lookup_insert_ne.
  - intros key Hkey. destruct (decide (feed_url = key)) as [->|Hne].
    + destruct cand; cbn; rewrite lookup_insert_eq; eauto.
    + destruct cand; cbn; by rewrite lookup_insert_ne.
Qed.

(** Checking a feed twice in a row against the same observation leaves
    the monitor as the first check left it: the second check emits
    nothing and stores nothing. *)
Theorem check_rss_twice_is_check_once (feed_url : string) (o : feed_obs) (st : RSSMonitor) :
  final (_check_rss feed_url o;; _check_rss feed_url o) st
  = final (_check_rss feed_url o) st.
Proof.
  rewrite final_bind_unit by apply total_check_rss.
  rewrite check_rss_self. fold (final (_check_rss feed_url o) st).
  rewrite final_check_rss. apply record_found_idempotent.
Qed.

(** For a URL that is not a channel page, the malformation flag of the
    parse has no effect on the monitor: the check ends in the same state
    whether the flag is set or not. *)
Theorem malformation_flag_ignored_off_channel
    (feed_url : string) (o : feed_obs) (b : bool) (st : RSSMonitor) :
  Py.contains "t.me/s/" feed_url = false →
  final (_check_rss feed_url (with_bozo b o)) st = final (_check_rss feed_url o) st.
Proof.
  intros Hurl. rewrite !final_check_rss. f_equal. unfold found, with_bozo. cbn.
  destruct (response o) as [d|status_code text]; [done|].
  by rewrite Hurl, !andb_false_r.
Qed.

(** ** The channel scraper *)

Lemma take_str_spec (n : nat) (s : string) :
  (∃ rest, s = Py.take_str n s +:+ rest) ∧
  String.length (Py.take_str n s) = Nat.min n (String.length s).
Proof.
  unfold Py.take_str. revert s. induction n as [|n IH]; intros [|c s]; cbn.
  - split; [by exists ""|done].
  - split; [by eexists|done].
  - split; [by exists ""|done].
  - destruct (IH s) as [[rest Hrest] Hlen]. split.
    + exists rest. by rewrite Hrest at 1.
    + by rewrite Hlen.
Qed.

Lemma total_parse_telegram_channel messages feed_url :
  total (_parse_telegram_channel messages feed_url).
Proof. apply total_try_except. intros e. apply total_emit. Qed.

Lemma final_parse_telegram_channel messages feed_url st :
  final (_parse_telegram_channel messages feed_url) st
  = record_found feed_url (telegram_found messages feed_url) st.
Proof. unfold final, run. by rewrite parse_telegram_channel_self. Qed.

(** When the first message block of a channel page has a permalink and a
    text, the scraper emits a candidate exactly when the permalink is not
    the identity stored for the feed, and stores it then; the candidate
    carries the text as content, the permalink as link, the origin flag,
    and as title a prefix of the text of at most 100 characters. *)
Theorem parse_telegram_channel_emits_iff_new
    (feed_url href text : string) (latest_message : tg_message)
    (rest : list tg_message) (st : RSSMonitor) :
  message_link latest_message = Some (Some href) →
  message_text latest_message = Some text →
  returns (_parse_telegram_channel (latest_message :: rest) feed_url) st ∧
  (last_entries st !! feed_url ≠ Some href →
     ∃ entry_title more,
       last_entries (final (_parse_telegram_channel (latest_message :: rest) feed_url) st)
         = <[feed_url := href]> (last_entries st) ∧
       pending_entries (final (_parse_telegram_channel (latest_message :: rest) feed_url) st)
         = pending_entries st ++ [{| title := entry_title; content := text; link := href;
                                     feed_url := feed_url; is_telegram := true |}] ∧
       text = entry_title +:+ more ∧
       (String.length entry_title ≤ 100)%nat) ∧
  (last_entries st !! feed_url = Some href →
     final (_parse_telegram_channel (latest_message :: rest) feed_url) st = st).
Proof.
  intros Hlink Htext.
  split; [apply returns_of_total, total_parse_telegram_channel|].
  rewrite final_parse_telegram_channel. unfold telegram_found. rewrite Hlink, Htext. cbn.
  split.
  - intros Hnew. apply is_new_true in Hnew. rewrite Hnew.
    destruct (take_str_spec 100 text) as [[more Hmore] Hlen].
    exists (Py.take_str 100 text), more. split_and!; [done|done|done|]. lia.
  - intros Hseen. unfold is_new. rewrite Hseen. by rewrite String.eqb_refl.
Qed.

(** A channel page that yields no identity (no message block, or a first
    block without permalink element, [href] or text element) leaves the
    monitor unchanged, and the scraper returns without raising. *)
Theorem unusable_channel_page_changes_nothing
    (messages : list tg_message) (feed_url : string) (st : RSSMonitor) :
  unusable_channel_page messages →
  returns (_parse_telegram_channel messages feed_url) st ∧
  final (_parse_telegram_channel messages feed_url) st = st.
Proof.
  intros Hbad.
  split; [apply returns_of_total, total_parse_telegram_channel|].
  rewrite final_parse_telegram_channel. unfold telegram_found.
  destruct messages as [|msg rest]; [done|]. cbn in Hbad.
  destruct Hbad as [->|[->| ->]]; [done|done|].
  by destruct (message_link msg) as [[?|]|].
Qed.

Lemma parse_telegram_channel_emits_iff_new_witness :
  returns (_parse_telegram_channel [Example.post] Example.channel) Example.monitor ∧
  (last_entries Example.monitor !! Example.channel ≠ Some "https://t.me/some_channel/42" →
     ∃ entry_title more,
       last_entries (final (_parse_telegram_channel [Example.post] Example.channel)
                       Example.monitor)
         = <[Example.channel := "https://t.me/some_channel/42"]> (last_entries Example.monitor) ∧
       pending_entries (final (_parse_telegram_channel [Example.post] Example.channel)
                          Example.monitor)
         = pending_entries Example.monitor
           ++ [{| title := entry_title;
                  content := "A new licence regime was announced today.";
                  link := "https://t.me/some_channel/42";
                  feed_url := Example.channel; is_telegram := true |}] ∧
       "A new licence regime was announced today." = entry_title +:+ more ∧
       (String.length entry_title ≤ 100)%nat) ∧
  (last_entries Example.monitor !! Example.channel = Some "https://t.me/some_channel/42" →
     final (_parse_telegram_channel [Example.post] Example.channel) Example.monitor
     = Example.monitor).
Proof.
  apply (parse_telegram_channel_emits_iff_new Example.channel
           "https://t.me/some_channel/42" "A new licence regime was announced today."
           Example.post [] Example.monitor); reflexivity.
Defined.

Lemma unusable_channel_page_changes_nothing_witness :
  returns (_parse_telegram_channel [Example.post_without_href] Example.channel)
    Example.monitor ∧
  final (_parse_telegram_channel [Example.post_without_href] Example.channel)
    Example.monitor = Example.monitor.
Proof.
  apply (unusable_channel_page_changes_nothing [Example.post_without_href]
           Example.channel Example.monitor).
  right; left. reflexivity.
Defined.

Lemma malformation_flag_ignored_off_channel_witness :
  final (_check_rss Example.url (with_bozo true (Example.fetched 200 [Example.entry_123])))
    Example.monitor
  = final (_check_rss Example.url (Example.fetched 200 [Example.entry_123])) Example.monitor.
Proof.
  apply (malformation_flag_ignored_off_channel Example.url
           (Example.fetched 200 [Example.entry_123]) true Example.monitor).
  reflexivity.
Defined.

Lemma check_rss_emits_iff_new_witness :
  returns (_check_rss Example.url (Example.fetched 200 [Example.entry_123])) Example.monitor ∧
  (last_entries Example.monitor !! Example.url ≠ Some "123" →
     last_entries (final (_check_rss Example.url (Example.fetched 200 [Example.entry_123]))
                     Example.monitor)
       = <[Example.url := "123"]> (last_entries Example.monitor) ∧
     pending_entries (final (_check_rss Example.url (Example.fetched 200 [Example.entry_123]))
                        Example.monitor)
       = pending_entries Example.monitor
         ++ [candidate Example.entry_123 Example.url "Licence granted"
               "http://feed.example/123"]) ∧
  (last_entries Example.monitor !! Example.url = Some "123" →
     final (_check_rss Example.url (Example.fetched 200 [Example.entry_123])) Example.monitor
     = Example.monitor).
Proof.
  apply (check_rss_emits_iff_new Example.url (Example.fetched 200 [Example.entry_123])
           Example.monitor Example.entry_123 [] "Licence granted"
           "http://feed.example/123" "123").
  - cbn. lia.
  - reflexivity.
  - reflexivity.
  - by vm_compute.
  - by vm_compute.
  - by vm_compute.
Defined.

(** ** The flush *)

(** With a positive [max_batch_size], an empty batch is never due,
    however long ago the last flush was: the batch check makes no
    classification call and leaves the monitor, the last-flush time
    included, as it is. *)
Theorem empty_batch_is_never_flushed (o : iteration_obs) (m : machine) :
  0 < max_batch_size (self m) →
  pending_entries (self m) = [] →
  due_for_flush (self m) (current_time o) = false ∧
  batch_check o m = (inr tt, m).
Proof.
  intros Hmax Hempty.
  assert (Hdue : due_for_flush (self m) (current_time o) = false).
  { apply not_true_iff_false. rewrite due_for_flush_true, Hempty. cbn.
    intros [H|[H _]]; [lia|done]. }
  split; [done|]. unfold batch_check. rewrite bind_unfold. cbn [get_self]. by rewrite Hdue.
Qed.

Lemma final_process_pending_entries (o : flush_obs) (st : RSSMonitor) :
  final (_process_pending_entries o) st
  = match pending_entries st with [] => st | _ :: _ => flushed o st end.
Proof.
  destruct (pending_entries st) as [|e b] eqn:Hb.
  - unfold final, run. by rewrite process_pending_entries_empty.
  - destruct (events_flush_nonempty o st) as (_ & -> & _); [by rewrite Hb|done].
Qed.

(** A flush never raises and changes nothing but the pending batch and
    the last-flush time: the last-seen index, the feed list and every
    setting stay as they were, whatever the classifier answers. *)
Theorem flush_touches_only_batch_and_timer (o : flush_obs) (st : RSSMonitor) :
  returns (_process_pending_entries o) st ∧
  last_entries (final (_process_pending_entries o) st) = last_entries st ∧
  feeds (final (_process_pending_entries o) st) = feeds st ∧
  last_sheet_check (final (_process_pending_entries o) st) = last_sheet_check st ∧
  same_config st (final (_process_pending_entries o) st).
Proof.
  split; [apply returns_of_total, total_process_pending_entries|].
  rewrite final_process_pending_entries.
  destruct (pending_entries st); by repeat split.
Qed.

Lemma entries_text_lookup (start : nat) (batch : list PendingEntry) (i : nat) :
  entries_text start batch !! i
  = (λ entry, {| item_number := start + i;
                 item_title := title entry;
                 item_content := Py.take_str 500 (content entry) |}) <$> batch !! i.
Proof.
  revert start i. induction batch as [|e b IH]; intros start [|i]; cbn; try done.
  - by rewrite Nat.add_0_r.
  - rewrite IH. by rewrite Nat.add_succ_r.
Qed.

(** The bulk call of a flush, made whenever the client can be built,
    lists the pending entries in batch order: the item at position [i]
    is numbered [i + 1] and carries the title of the [i]-th entry and a
    prefix of its content of at most 500 characters; there is one item
    per entry. *)
Theorem flush_prompt_lists_batch_in_order (o : flush_obs) (st : RSSMonitor) :
  pending_entries st ≠ [] →
  openai_ok o = true →
  ∃ items,
    bulk_calls (events (_process_pending_entries o) st) = [items] ∧
    length items = length (pending_entries st) ∧
    ∀ i entry, pending_entries st !! i = Some entry →
      ∃ item more,
        items !! i = Some item ∧
        item_number item = S i ∧
        item_title item = title entry ∧
        content entry = item_content item +:+ more ∧
        (String.length (item_content item) ≤ 500)%nat.
Proof.
  intros Hne Hok. destruct (events_flush_nonempty o st Hne) as (Hout & _ & _).
  exists (entries_text 1 (pending_entries st)).
  rewrite (flush_outcome_bulk_calls _ _ _ Hout), Hok.
  split_and!; [done|apply entries_text_length|].
  intros i entry Hi. rewrite entries_text_lookup, Hi. cbn.
  destruct (take_str_spec 500 (content entry)) as [[more Hmore] Hlen].
  eexists _, more. split_and!; [done|done|done|done|]. cbn. lia.
Qed.

Lemma empty_batch_is_never_flushed_witness :
  due_for_flush (self {| self := Example.monitor; trace := [] |})
    (current_time (Example.turn 100000 None)) = false ∧
  batch_check (Example.turn 100000 None) {| self := Example.monitor; trace := [] |}
  = (inr tt, {| self := Example.monitor; trace := [] |}).
Proof.
  apply (empty_batch_is_never_flushed (Example.turn 100000 None)
           {| self := Example.monitor; trace := [] |}).
  - by vm_compute.
  - reflexivity.
Defined.

Lemma flush_prompt_lists_batch_in_order_witness :
  ∃ items,
    bulk_calls (events (_process_pending_entries (Example.answer NotJson))
                  Example.two_pending) = [items] ∧
    length items = length (pending_entries Example.two_pending) ∧
    ∀ i entry, pending_entries Example.two_pending !! i = Some entry →
      ∃ item more,
        items !! i = Some item ∧
        item_number item = S i ∧
        item_title item = title entry ∧
        content entry = item_content item +:+ more ∧
        (String.length (item_content item) ≤ 500)%nat.
Proof.
  apply (flush_prompt_lists_batch_in_order (Example.answer NotJson) Example.two_pending).
  - discriminate.
  - reflexivity.
Defined.

(** ** The notifier without a usable registry *)

Lemma parse_lines_malformed (lines : list (option Z)) (m : machine) :
  None ∈ lines →
  parse_lines lines m = (inl (Py.ValueError "invalid literal for int() with base 10"), m).
Proof.
  induction lines as [|[n|] rest IH]; intros Hin; cbn [parse_lines].
  - by apply not_elem_of_nil in Hin.
  - rewrite bind_unfold, IH; [done|].
    apply elem_of_cons in Hin as [?|?]; [done|done].
  - done.
Qed.

(** When the chat-id file does not exist the notifier returns at once
    and tries no destination; when the file holds a line that is not an
    integer the notifier raises [ValueError] before any destination is
    tried, the valid lines included. *)
Theorem send_telegram_message_without_usable_registry
    (o : chat_obs) (message : Message) (st : RSSMonitor) :
  (chat_file o = None →
     returns (send_telegram_message o message) st ∧
     events (send_telegram_message o message) st = []) ∧
  (∀ lines, chat_file o = Some lines → None ∈ lines →
     (∃ detail, (run (send_telegram_message o message) st).1 = inl (Py.ValueError detail)) ∧
     events (send_telegram_message o message) st = []).
Proof.
  unfold returns, events, run, send_telegram_message, load_chat_ids. split.
  - intros ->. rewrite bind_unfold. cbn. eauto.
  - intros lines -> Hbad. rewrite bind_unfold, parse_lines_malformed by done.
    cbn. eauto.
Qed.

(** ** The feed list *)

Lemma append_cons (c : ascii) (s t : string) : String c s +:+ t = String c (s +:+ t).
Proof. reflexivity. Qed.

Lemma append_nil_l (s : string) : "" +:+ s = s.
Proof. reflexivity. Qed.

Lemma prefix_cons (a b : ascii) (needle hay : string) :
  String.prefix (String a needle) (String b hay)
  = if Ascii.ascii_dec a b then String.prefix needle hay else false.
Proof. reflexivity. Qed.

Lemma prefix_spec (needle hay : string) :
  String.prefix needle hay = true ↔ ∃ post, hay = needle +:+ post.
Proof.
  revert hay. induction needle as [|a needle IH]; intros hay.
  - split; [|by destruct hay]. intros _. exists hay. by rewrite append_nil_l.
  - destruct hay as [|b hay].
    + split; [done|]. intros [post Hpost]. by rewrite append_cons in Hpost.
    + rewrite prefix_cons. destruct (Ascii.ascii_dec a b) as [->|Hne].
      * rewrite IH. split; intros [post Hpost]; exists post.
        -- by rewrite append_cons, <- Hpost.
        -- rewrite append_cons in Hpost. by simplify_eq.
      * split; [done|]. intros [post Hpost]. rewrite append_cons in Hpost. by simplify_eq.
Qed.

Lemma contains_nil (needle : string) :
  Py.contains needle "" = String.prefix needle "" || false.
Proof. reflexivity. Qed.

Lemma contains_cons (needle : string) (c : ascii) (hay : string) :
  Py.contains needle (String c hay)
  = String.prefix needle (String c hay) || Py.contains needle hay.
Proof. reflexivity. Qed.

(** [Py.contains] decides the substring relation. *)
Lemma contains_spec (needle hay : string) :
  Py.contains needle hay = true ↔ ∃ pre post, hay = pre +:+ needle +:+ post.
Proof.
  induction hay as [|c hay IH].
  - rewrite contains_nil, orb_true_iff, prefix_spec. split.
    + intros [[post Hpost]|?]; [|done]. exists "", post. by rewrite append_nil_l.
    + intros (pre & post & Hhay). left. destruct pre as [|a pre].
      * exists post. by rewrite append_nil_l in Hhay.
      * by rewrite append_cons in Hhay.
  - rewrite contains_cons, orb_true_iff, prefix_spec, IH. split.
    + intros [[post Hpost]|(pre & post & Hhay)].
      * exists "", post. by rewrite append_nil_l.
      * exists (String c pre), post. by rewrite append_cons, <- Hhay.
    + intros (pre & post & Hhay). destruct pre as [|a pre].
      * left. exists post. by rewrite append_nil_l in Hhay.
      * right. rewrite append_cons in Hhay. simplify_eq. by exists pre, post.
Qed.

Lemma get_rss_feeds_values (values : list (list string)) (m : machine) :
  get_rss_feeds (Some values) m
  = (inr (selected_feeds values), {| self := self m; trace := trace m ++ [SheetGet] |}).
Proof. reflexivity. Qed.

Lemma selected_feeds_sublist (values : list (list string)) :
  sublist (selected_feeds values) (omap head values).
Proof.
  induction values as [|[|cell row] values IH]; cbn; [done|done|].
  destruct (Py.contains "http" (Py.lower cell)); by constructor.
Qed.

(** When the Sheets request succeeds, [get_rss_feeds] returns, in sheet
    order, the first cell of every non-empty row whose first cell contains
    ["http"] once put in lower case, and nothing else; empty rows and
    rows of any length do not make it raise, and the monitor is left
    alone. *)
Theorem get_rss_feeds_selects_http_cells (values : list (list string)) (st : RSSMonitor) :
  ∃ selected,
    (run (get_rss_feeds (Some values)) st).1 = inr selected ∧
    final (get_rss_feeds (Some values)) st = st ∧
    sublist selected (omap head values) ∧
    ∀ cell, cell ∈ selected ↔
      ∃ row pre post,
        row ∈ values ∧ head row = Some cell ∧ Py.lower cell = pre +:+ "http" +:+ post.
Proof.
  exists (selected_feeds values). unfold final, run. rewrite get_rss_feeds_values.
  split_and!; [done|done|apply selected_feeds_sublist|].
  intros cell. unfold selected_feeds. rewrite list_elem_of_omap. split.
  - intros ([|c row] & Hin & Hsel); [done|].
    destruct (Py.contains "http" (Py.lower c)) eqn:Hc; [|done]. simplify_eq.
    apply contains_spec in Hc as (pre & post & Hc). by exists (cell :: row), pre, post.
  - intros (row & pre & post & Hin & Hhead & Hlow). exists row. split; [done|].
    destruct row as [|c row]; [done|]. cbn in Hhead. simplify_eq.
    replace (Py.contains "http" (Py.lower cell)) with true; [done|].
    symmetry. apply contains_spec. eauto.
Qed.

(** The refresh of lines 120-123 runs only when at least
    [sheet_refresh_interval] has passed since the last one: before that
    the loop makes no Sheets request and keeps its list; when it is due
    and the request succeeds, the list becomes the selected URLs and the
    refresh time the clock reading of the turn, the last-seen index and
    the pending batch staying as they are. *)
Theorem refresh_feeds_only_when_due (o : iteration_obs) (st : RSSMonitor) :
  (current_time o - last_sheet_check st < sheet_refresh_interval st →
     run (refresh_feeds o) st = (inr tt, {| self := st; trace := [] |})) ∧
  (∀ values,
     sheet_refresh_interval st ≤ current_time o - last_sheet_check st →
     sheet o = Some values →
     returns (refresh_feeds o) st ∧
     final (refresh_feeds o) st
     = set_last_sheet_check (current_time o) (set_feeds (selected_feeds values) st) ∧
     events (refresh_feeds o) st = [SheetGet]).
Proof.
  unfold returns, final, events, run, refresh_feeds. split.
  - intros Hearly. rewrite bind_unfold. cbn [get_self self].
    replace (current_time o - last_sheet_check st >=? sheet_refresh_interval st) with false;
      [done|].
    symmetry. apply not_true_iff_false. rewrite Z.geb_le. lia.
  - intros values Hdue Hsheet. rewrite bind_unfold. cbn [get_self self].
    replace (current_time o - last_sheet_check st >=? sheet_refresh_interval st) with true
      by (symmetry; apply Z.geb_le; lia).
    rewrite Hsheet, bind_unfold, get_rss_feeds_values. cbn. eauto.
Qed.

(** ** What a turn of the loop keeps *)

Lemma evolves_refl st : evolves st st.
Proof. by repeat split. Qed.

Lemma evolves_trans st1 st2 st3 : evolves st1 st2 → evolves st2 st3 → evolves st1 st3.
Proof.
  unfold evolves, same_config. intros [H12 Hd12] [H23 Hd23]. destruct_and!.
  split; [repeat split; congruence|set_solver].
Qed.

Lemma keeps_ret {A} (x : A) : keeps (mret x).
Proof. intros m. apply evolves_refl. Qed.

Lemma keeps_raise {A} (e : Py.exn) : keeps (@raise A e).
Proof. intros m. apply evolves_refl. Qed.

Lemma keeps_emit (e : event) : keeps (emit e).
Proof. intros m. apply evolves_refl. Qed.

Lemma keeps_get_self : keeps get_self.
Proof. intros m. apply evolves_refl. Qed.

Lemma keeps_modify_self (f : RSSMonitor → RSSMonitor) :
  (∀ st, evolves st (f st)) → keeps (modify_self f).
Proof. intros Hf m. apply Hf. Qed.

Lemma keeps_bind {A B} (c : M A) (k : A → M B) :
  keeps c → (∀ x, keeps (k x)) → keeps (c ≫= k).
Proof.
  intros Hc Hk m. rewrite bind_unfold. specialize (Hc m).
  destruct (c m) as [[e|x] m1]; [done|].
  eapply evolves_trans; [exact Hc|apply Hk].
Qed.

Lemma keeps_try_except {A} (c : M A) (h : Py.exn → M A) :
  keeps c → (∀ e, keeps (h e)) → keeps (try_except c h).
Proof.
  intros Hc Hh m. unfold try_except. specialize (Hc m).
  destruct (c m) as [[e|x] m1]; [|done].
  eapply evolves_trans; [exact Hc|apply Hh].
Qed.

Lemma evolves_record_found feed_url f st : evolves st (record_found feed_url f st).
Proof.
  destruct f as [[ident cand]|]; cbn; [|apply evolves_refl].
  destruct (is_new st feed_url ident); [|apply evolves_refl].
  destruct cand; (split; [by repeat split|]); cbn; rewrite dom_insert_L; set_solver.
Qed.

Lemma keeps_check_rss feed_url o : keeps (_check_rss feed_url o).
Proof. intros m. rewrite check_rss_self. apply evolves_record_found. Qed.

Lemma keeps_poll_feeds checks i urls : keeps (poll_feeds checks i urls).
Proof.
  revert i. induction urls as [|url rest IH]; intros i; cbn [poll_feeds].
  - apply keeps_ret.
  - apply keeps_bind; [apply keeps_check_rss|intros _].
    apply keeps_bind; [apply keeps_emit|intros _]. apply IH.
Qed.

Lemma keeps_process_pending_entries o : keeps (_process_pending_entries o).
Proof.
  intros m. destruct (decide (pending_entries (self m) = [])) as [Hb|Hb].
  - rewrite process_pending_entries_empty by done. apply evolves_refl.
  - destruct (process_pending_entries_nonempty o m Hb) as (evs & _ & ->).
    by repeat split.
Qed.

Lemma keeps_get_rss_feeds s : keeps (get_rss_feeds s).
Proof. intros m. destruct s; apply evolves_refl. Qed.

Lemma keeps_refresh_feeds o : keeps (refresh_feeds o).
Proof.
  unfold refresh_feeds. apply keeps_bind; [apply keeps_get_self|intros st].
  destruct (_ >=? _); [|apply keeps_ret].
  apply keeps_bind; [apply keeps_get_rss_feeds|intros fresh].
  apply keeps_bind; [|intros _]; apply keeps_modify_self; intros st'; by repeat split.
Qed.

Lemma keeps_batch_check o : keeps (batch_check o).
Proof.
  unfold batch_check. apply keeps_bind; [apply keeps_get_self|intros st].
  destruct (due_for_flush _ _); [apply keeps_process_pending_entries|apply keeps_ret].
Qed.

Lemma keeps_monitor_iteration o : keeps (monitor_iteration o).
Proof.
  unfold monitor_iteration. apply keeps_bind; [|intros _].
  - apply keeps_try_except; [|intros e; apply keeps_emit].
    apply keeps_bind; [apply keeps_refresh_feeds|intros _].
    apply keeps_bind; [apply keeps_get_self|intros st].
    apply keeps_bind; [apply keeps_poll_feeds|intros _]. apply keeps_batch_check.
  - apply keeps_bind; [apply keeps_get_self|intros st]. apply keeps_emit.
Qed.

(** A turn of the loop never raises; it keeps the intervals, the batch
    thresholds and the running flag, never drops a stored identity, and
    ends by sleeping for the lesser of the poll interval and the refresh
    interval. *)
Theorem monitor_iteration_ends_with_sleep (o : iteration_obs) (st : RSSMonitor) :
  returns (monitor_iteration o) st ∧
  evolves st (final (monitor_iteration o) st) ∧
  ∃ before,
    events (monitor_iteration o) st
    = before ++ [Sleep (Z.min (check_interval st) (sheet_refresh_interval st))].
Proof.
  split; [apply returns_of_total, total_monitor_iteration|].
  split; [apply (keeps_monitor_iteration o {| self := st; trace := [] |})|].
  unfold events, run, monitor_iteration.
  set (body := try_except _ _). set (m0 := {| self := st; trace := [] |}).
  assert (Hbody : total body).
  { apply total_try_except. intros e. apply total_emit. }
  assert (Hkeep : evolves st (self (body m0).2)).
  { apply (keeps_try_except _ _); [|intros e; apply keeps_emit].
    apply keeps_bind; [apply keeps_refresh_feeds|intros _].
    apply keeps_bind; [apply keeps_get_self|intros st'].
    apply keeps_bind; [apply keeps_poll_feeds|intros _]. apply keeps_batch_check. }
  rewrite bind_unfold, (total_unit_eq body m0 Hbody).
  destruct Hkeep as [(Hci & Hsri & _) _].
  generalize dependent ((body m0).2). intros m1 Hci Hsri.
  exists (trace m1). run_m. by rewrite Hci, Hsri.
Qed.

Lemma total_monitor_loop turns : total (_monitor_loop turns).
Proof.
  induction turns as [|o rest IH]; cbn [_monitor_loop]; [apply total_ret|].
  apply total_bind; [apply total_get_self|intros st].
  destruct (is_running st); [|apply total_ret].
  apply total_bind; [apply total_monitor_iteration|intros _; apply IH].
Qed.

Lemma keeps_monitor_loop turns : keeps (_monitor_loop turns).
Proof.
  induction turns as [|o rest IH]; cbn [_monitor_loop]; [apply keeps_ret|].
  apply keeps_bind; [apply keeps_get_self|intros st].
  destruct (is_running st); [|apply keeps_ret].
  apply keeps_bind; [apply keeps_monitor_iteration|intros _; apply IH].
Qed.

Lemma monitor_loop_running (turns : list iteration_obs) (m : machine) :
  is_running (self m) = true →
  _monitor_loop turns m = for_each turns monitor_iteration m.
Proof.
  revert m. induction turns as [|o rest IH]; intros m Hrun; [done|].
  cbn [_monitor_loop for_each]. rewrite !bind_unfold. cbn [get_self]. rewrite Hrun.
  rewrite bind_unfold.
  pose proof (keeps_monitor_iteration o m) as [(_ & _ & Hflag & _) _].
  destruct (monitor_iteration o m) as [[e|[]] m1]; [done|].
  apply IH. cbn in Hflag. by rewrite Hflag.
Qed.

(** The loop does nothing when the running flag is clear; when it is set
    the loop itself never clears it, so every turn given is performed, one
    after the other; in both cases the loop never raises, keeps the
    configuration and never drops a stored identity. *)
Theorem monitor_loop_runs_every_turn (turns : list iteration_obs) (st : RSSMonitor) :
  returns (_monitor_loop turns) st ∧
  evolves st (final (_monitor_loop turns) st) ∧
  (is_running st = false →
     run (_monitor_loop turns) st = (inr tt, {| self := st; trace := [] |})) ∧
  (is_running st = true →
     run (_monitor_loop turns) st = run (for_each turns monitor_iteration) st).
Proof.
  split_and!.
  - apply returns_of_total, total_monitor_loop.
  - apply (keeps_monitor_loop turns {| self := st; trace := [] |}).
  - intros Hstop. unfold run. destruct turns as [|o rest]; [done|].
    cbn [_monitor_loop]. rewrite bind_unfold. cbn. by rewrite Hstop.
  - intros Hrun. unfold run. by apply monitor_loop_running.
Qed.

(** ** The chat-id registry *)







(** [collect_chat_id] writes the file in one case only: a group or
    supergroup chat whose id is not in a readable file.  In every other
    case the file is untouched and no reply is sent; a private chat ends
    normally, and an unreadable file makes the call raise whatever the
    type of the chat, the file being read before the type is looked at. *)
Theorem collect_chat_id_writes_only_new_groups
    (chat : Chat) (reply_ok : bool) (file : option (list (option Z))) :
  (chat_type chat ∈ ["group"; "supergroup"] ∧
   (∃ ids, read_chat_ids file = inr ids ∧ chat_ident chat ∉ ids) ∧
   file_after (collect_chat_id chat reply_ok file) = save_chat_id (chat_ident chat) file ∧
   replied (collect_chat_id chat reply_ok file) = true)
  ∨ (file_after (collect_chat_id chat reply_ok file) = file ∧
     replied (collect_chat_id chat reply_ok file) = false ∧
     match read_chat_ids file with
     | inl e => outcome (collect_chat_id chat reply_ok file) = inl e
     | inr _ => outcome (collect_chat_id chat reply_ok file) = inr tt
     end).
Proof.
  unfold collect_chat_id. destruct (read_chat_ids file) as [e|ids]; [by right|].
  destruct (decide (chat_type chat ∈ ["group"; "supergroup"])) as [Hgroup|Hother].
  - rewrite (bool_decide_eq_true_2 _ Hgroup).
    destruct (decide (chat_ident chat ∈ ids)) as [Hin|Hout].
    + rewrite bool_decide_eq_false_2 by (by intros ?). by right.
    + rewrite bool_decide_eq_true_2 by done. left. eauto 6.
  - rewrite (bool_decide_eq_false_2 _ Hother). by right.
Qed.



(** ** The keyword table *)

Lemma append_nil_r (s : string) : s +:+ "" = s.
Proof. induction s as [|c s IH]; [done|]. by rewrite append_cons, IH. Qed.

Lemma append_assoc (s t u : string) : (s +:+ t) +:+ u = s +:+ t +:+ u.
Proof. induction s as [|c s IH]; [done|]. by rewrite !append_cons, IH. Qed.

Lemma length_append (s t : string) :
  String.length (s +:+ t) = (String.length s + String.length t)%nat.
Proof. induction s as [|c s IH]; [done|]. rewrite append_cons. cbn. by rewrite IH. Qed.

Lemma substring_all (s : string) : String.substring 0 (String.length s) s = s.
Proof. induction s as [|c s IH]; [done|]. cbn. by rewrite IH. Qed.

Lemma substring_after (s t : string) :
  String.substring (String.length s) (String.length (s +:+ t) - String.length s) (s +:+ t) = t.
Proof.
  induction s as [|c s IH].
  - rewrite append_nil_l, Nat.sub_0_r. apply substring_all.
  - rewrite append_cons. cbn [String.length String.substring]. apply IH.
Qed.

Lemma str_split_fuel_nonempty fuel sep piece s : str_split_fuel fuel sep piece s ≠ [].
Proof.
  revert piece s. induction fuel as [|fuel IH]; intros piece s; [done|].
  cbn [str_split_fuel]. destruct s as [|c rest]; [done|].
  destruct (String.prefix sep (String c rest)); [done|apply IH].
Qed.

Lemma str_join_cons sep piece pieces :
  pieces ≠ [] → str_join sep (piece :: pieces) = piece +:+ sep +:+ str_join sep pieces.
Proof. by destruct pieces. Qed.

Lemma str_join_split_fuel fuel sep piece s :
  str_join sep (str_split_fuel fuel sep piece s) = piece +:+ s.
Proof.
  revert piece s. induction fuel as [|fuel IH]; intros piece s; [done|].
  cbn [str_split_fuel]. destruct s as [|c rest].
  - cbn. by rewrite append_nil_r.
  - destruct (String.prefix sep (String c rest)) eqn:Hpre.
    + apply prefix_spec in Hpre as [post Hpost].
      rewrite str_join_cons by apply str_split_fuel_nonempty.
      rewrite IH, Hpost, substring_after. by rewrite append_nil_l.
    + rewrite IH, append_assoc. by rewrite append_cons, append_nil_l.
Qed.

(** Joining the pieces of a split with the separator gives the string
    back. *)
Lemma str_join_split sep s : str_join sep (str_split sep s) = s.
Proof. unfold str_split. by rewrite str_join_split_fuel, append_nil_l. Qed.

Lemma keyword_rows_app rows1 rows2 keywords :
  keyword_rows (rows1 ++ rows2) keywords
  = match keyword_rows rows1 keywords with
    | inr keywords' => keyword_rows rows2 keywords'
    | inl e => inl e
    end.
Proof.
  revert keywords. induction rows1 as [|[|key [|cell more]] rows1 IH]; intros keywords;
    cbn; try done; apply IH.
Qed.

Lemma keyword_rows_other_keys rows keywords result key :
  keyword_rows rows keywords = inr result →
  (∀ row, row ∈ rows → head row ≠ Some key) →
  result !! key = keywords !! key.
Proof.
  revert keywords. induction rows as [|[|k [|cell more]] rows IH]; intros keywords Hres Hrows;
    cbn in Hres.
  - by simplify_eq.
  - apply IH; [done|]. intros row Hrow. apply Hrows. by right.
  - done.
  - rewrite (IH _ Hres).
    + apply lookup_insert_ne. intros ->. by apply (Hrows (key :: cell :: more)); [left|].
    + intros row Hrow. apply Hrows. by right.
Qed.

(** In the table [get_keywords] returns, a key maps to the keywords of
    the last data row that starts with it: the second cell of that row cut
    at every [", "], so that joining the keywords with [", "] gives the
    cell back.  The first row of the sheet is a header and plays no part. *)
Theorem get_keywords_last_row_wins
    (header : list string) (before after : list (list string))
    (key cell : string) (more : list string) (table : gmap string (list string)) :
  get_keywords (Some (header :: before ++ (key :: cell :: more) :: after)) = inr table →
  (∀ row, row ∈ after → head row ≠ Some key) →
  table !! key = Some (str_split ", " cell) ∧
  str_join ", " (str_split ", " cell) = cell.
Proof.
  intros Htable Hafter. split; [|apply str_join_split].
  cbn in Htable. rewrite keyword_rows_app in Htable.
  destruct (keyword_rows before ∅) as [e|keywords]; [done|]. cbn in Htable.
  rewrite (keyword_rows_other_keys _ _ _ key Htable Hafter).
  apply lookup_insert_eq.
Qed.

Lemma keyword_rows_returns rows keywords :
  (∃ result, keyword_rows rows keywords = inr result) ↔ ∀ cell : string, [cell] ∉ rows.
Proof.
  revert keywords. induction rows as [|[|k [|cell more]] rows IH]; intros keywords; cbn.
  - split; [|by eauto]. intros _ c Hc. by apply not_elem_of_nil in Hc.
  - rewrite IH. split.
    + intros Hrows c Hc. apply elem_of_cons in Hc as [?|?]; [done|by eapply Hrows].
    + intros Hrows c Hc. apply (Hrows c). by right.
  - split; [by intros [? ?]|]. intros Hrows. destruct (Hrows k). by left.
  - rewrite IH. split.
    + intros Hrows c Hc. apply elem_of_cons in Hc as [?|?]; [done|by eapply Hrows].
    + intros Hrows c Hc. apply (Hrows c). by right.
Qed.

(** [get_keywords] has no handler: it raises when the Sheets request
    fails, and when the request succeeds it returns a table exactly when
    no row after the header has a single cell; empty rows are skipped and
    a one-cell header does no harm. *)
Theorem get_keywords_returns_iff_rows_have_two_cells (values : list (list string)) :
  (∃ e, get_keywords None = inl e) ∧
  ((∃ table, get_keywords (Some values) = inr table)
   ↔ ∀ cell : string, [cell] ∉ tail values).
Proof. split; [by eexists|]. apply keyword_rows_returns. Qed.

Lemma get_keywords_last_row_wins_witness :
  (match get_keywords (Some Example.keyword_sheet) with
   | inr table => table
   | inl _ => ∅
   end) !! "License" = Some (str_split ", " "authorisation, licence") ∧
  str_join ", " (str_split ", " "authorisation, licence") = "authorisation, licence".
Proof.
  apply (get_keywords_last_row_wins
           ["Category"; "Keywords"]
           [["License"; "permit, licence"]; [];
            ["AML/CFT"; "kyc, laundering, cft"; "note"]]
           [] "License" "authorisation, licence" []).
  - reflexivity.
  - intros row Hrow. by apply not_elem_of_nil in Hrow.
Defined.

(** ** What a sweep fetches *)














(** ** The registry and the notifier together *)




Lemma send_telegram_message_tries_all_witness :
  returns (send_telegram_message Example.chats Example.message) Example.monitor ∧
  final (send_telegram_message Example.chats Example.message) Example.monitor
  = Example.monitor ∧
  attempts (events (send_telegram_message Example.chats Example.message) Example.monitor)
  = [11; 22; 33] ∧
  deliveries (events (send_telegram_message Example.chats Example.message) Example.monitor)
  = (λ c, (c, Example.message)) <$> delivered_to Example.chats 0 [11; 22; 33].
Proof.
  apply (send_telegram_message_tries_all Example.chats Example.message [11; 22; 33]
           Example.monitor).
  reflexivity.
Defined.
